(** * Task lifecycle, query and statistics model of the task-management backend

    A shallow embedding of the Express/Mongoose task API: the Mongoose
    schema of [models/Task.js] (defaults, validators, the [pre('save')] hook
    and the statics) and the handlers of [routes/tasks.js].

    Conventions of the embedding:
    - a [Date] is its number of milliseconds since the epoch, a [Z];
    - every [new Date()] evaluated while one request is served reads the
      same instant, the [now] argument of the handler;
    - an ObjectId is a [nat]; the collection is a finite map from [_id] to
      the document, and fresh identifiers come from a counter that never
      goes back, as ObjectIds are never issued twice;
    - JavaScript strings are ASCII strings; enumerated strings that passed
      [isIn] are values of an inductive type;
    - the request body carries the six keys the routes validate
      (title, description, deadline, priority, status, tags);
    - JavaScript numbers that are counts or page numbers are exact integers;
      the one place where the code divides ([completionRate]) is evaluated
      on IEEE binary64 numbers, as JavaScript does. *)

From Stdlib Require Import ZArith Ascii PrimFloat FloatOps SpecFloat Uint63.
From stdpp Require Import gmap strings list sorting.

(** ** Dates, identifiers and enumerations *)

Definition Date := Z.
Bind Scope Z_scope with Date.
Definition ObjectId := nat.

(** [status: { enum: ['Pending', 'In Progress', 'Completed'] }] *)
Inductive Status := Pending | InProgress | Completed.

(** [priority: { enum: ['Low', 'Medium', 'High'] }] *)
Inductive Priority := Low | Medium | High.

#[global] Instance Status_eq_dec : EqDecision Status.
Proof. solve_decision. Defined.

#[global] Instance Priority_eq_dec : EqDecision Priority.
Proof. solve_decision. Defined.

(** ** The task document ([taskSchema]) *)

Record Task := mkTask {
  user : ObjectId;
  title : string;
  description : string;
  status : Status;
  deadline : Date;
  priority : Priority;
  tags : list string;
  completedAt : option Date;
  createdAt : Date;
  updatedAt : Date
}.

#[global] Instance Task_eq_dec : EqDecision Task.
Proof. solve_decision. Defined.

Definition set_status (s : Status) (t : Task) : Task :=
  mkTask (user t) (title t) (description t) s (deadline t) (priority t)
         (tags t) (completedAt t) (createdAt t) (updatedAt t).

Definition set_completedAt (c : option Date) (t : Task) : Task :=
  mkTask (user t) (title t) (description t) (status t) (deadline t)
         (priority t) (tags t) c (createdAt t) (updatedAt t).

Definition set_updatedAt (d : Date) (t : Task) : Task :=
  mkTask (user t) (title t) (description t) (status t) (deadline t)
         (priority t) (tags t) (completedAt t) (createdAt t) d.

(** The lifecycle invariant of the data model:
    [completedAt] is non-null exactly when the status is Completed. *)
Definition lifecycle_ok (t : Task) : Prop :=
  completedAt t ≠ None ↔ status t = Completed.

(** ** Strings: [trim] and [isLength] of the validation chains *)

(** The ASCII members of the JavaScript [\s] class. *)
Definition is_space (c : ascii) : bool :=
  let n := nat_of_ascii c in
  (n =? 32) || ((9 <=? n) && (n <=? 13)).

Fixpoint ltrim (s : string) : string :=
  match s with
  | EmptyString => EmptyString
  | String c r => if is_space c then ltrim r else s
  end.

Fixpoint rtrim (s : string) : string :=
  match s with
  | EmptyString => EmptyString
  | String c r =>
      match rtrim r with
      | EmptyString => if is_space c then EmptyString else String c EmptyString
      | r' => String c r'
      end
  end.

Definition trim (s : string) : string := rtrim (ltrim s).

(** [isLength({ min, max })] *)
Definition isLength (min max : nat) (s : string) : bool :=
  (min <=? String.length s) && (String.length s <=? max).

(** ** Request bodies and their validation chains *)

(** [req.body] of POST /api/tasks and PUT /api/tasks/:id; an absent key is
    [None]. *)
Record TaskBody := mkBody {
  b_title : option string;
  b_description : option string;
  b_deadline : option Date;
  b_priority : option Priority;
  b_status : option Status;
  b_tags : option (list string)
}.

(** [body('tags.*').optional().trim().isLength({ max: 50 })] *)
Definition validTags (o : option (list string)) : bool :=
  match o with
  | None => true
  | Some l => forallb (λ tag, isLength 0 50 (trim tag)) l
  end.

(** [body(key).trim().isLength({ min, max })]: an absent key is checked
    as the empty string. *)
Definition requiredLength (min max : nat) (o : option string) : bool :=
  isLength min max (trim (default "" o)).

(** [body(key).optional().trim().isLength({ min, max })] *)
Definition optionalLength (min max : nat) (o : option string) : bool :=
  match o with
  | Some s => isLength min max (trim s)
  | None => true
  end.

(** The chain of POST /api/tasks: title and description are trimmed and must
    have 1..200 and 1..1000 characters, deadline must be present
    ([isISO8601] is not optional), tags are checked one by one. *)
Definition validCreate (b : TaskBody) : bool :=
  requiredLength 1 200 (b_title b) &&
  requiredLength 1 1000 (b_description b) &&
  bool_decide (b_deadline b ≠ None) &&
  validTags (b_tags b).

(** The chain of PUT /api/tasks/:id: every key is [optional()]. *)
Definition validUpdate (b : TaskBody) : bool :=
  optionalLength 1 200 (b_title b) &&
  optionalLength 1 1000 (b_description b) &&
  validTags (b_tags b).

(** The sanitizers of the chains write the trimmed values back to
    [req.body]. *)
Definition sanitize (b : TaskBody) : TaskBody :=
  mkBody (trim <$> b_title b) (trim <$> b_description b) (b_deadline b)
         (b_priority b) (b_status b) (map trim <$> b_tags b).

(** ** Mongo queries over the task collection *)

Inductive IdCond :=
  | IdEq (i : ObjectId)            (* _id: i *)
  | IdIn (l : list ObjectId).      (* _id: { $in: l } *)

Inductive StatusCond :=
  | StatusEq (s : Status)          (* status: s *)
  | StatusNe (s : Status).         (* status: { $ne: s } *)

Inductive DateCond :=
  | DateLt (d : Date)              (* { $lt: d } *)
  | DateGte (d : Date)             (* { $gte: d } *)
  | DateBetween (lo hi : Date).    (* { $gte: lo, $lte: hi } *)

(** A query object: one optional condition per key, as in a JavaScript
    object, where assigning a key again replaces its condition. *)
Record TaskQuery := mkQuery {
  q_id : option IdCond;
  q_user : option ObjectId;
  q_status : option StatusCond;
  q_priority : option Priority;
  q_deadline : option DateCond;
  q_createdAt : option DateCond;
  q_completedAt : option DateCond
}.

(** [{ user: uid }] *)
Definition byUser (uid : ObjectId) : TaskQuery :=
  mkQuery None (Some uid) None None None None None.

(** [query._id = c] *)
Definition with_id (c : IdCond) (q : TaskQuery) : TaskQuery :=
  mkQuery (Some c) (q_user q) (q_status q) (q_priority q) (q_deadline q)
          (q_createdAt q) (q_completedAt q).

(** [query.status = c] *)
Definition with_status (c : StatusCond) (q : TaskQuery) : TaskQuery :=
  mkQuery (q_id q) (q_user q) (Some c) (q_priority q) (q_deadline q)
          (q_createdAt q) (q_completedAt q).

(** [query.priority = p] *)
Definition with_priority (p : Priority) (q : TaskQuery) : TaskQuery :=
  mkQuery (q_id q) (q_user q) (q_status q) (Some p) (q_deadline q)
          (q_createdAt q) (q_completedAt q).

(** [query.deadline = c] *)
Definition with_deadline (c : DateCond) (q : TaskQuery) : TaskQuery :=
  mkQuery (q_id q) (q_user q) (q_status q) (q_priority q) (Some c)
          (q_createdAt q) (q_completedAt q).

(** [query.createdAt = c] *)
Definition with_createdAt (c : DateCond) (q : TaskQuery) : TaskQuery :=
  mkQuery (q_id q) (q_user q) (q_status q) (q_priority q) (q_deadline q)
          (Some c) (q_completedAt q).

(** [query.completedAt = c] *)
Definition with_completedAt (c : DateCond) (q : TaskQuery) : TaskQuery :=
  mkQuery (q_id q) (q_user q) (q_status q) (q_priority q) (q_deadline q)
          (q_createdAt q) (Some c).

Definition idMatches (c : IdCond) (i : ObjectId) : bool :=
  match c with
  | IdEq j => bool_decide (i = j)
  | IdIn l => bool_decide (i ∈ l)
  end.

Definition statusMatches (c : StatusCond) (s : Status) : bool :=
  match c with
  | StatusEq x => bool_decide (s = x)
  | StatusNe x => negb (bool_decide (s = x))
  end.

(** A comparison operator never matches a null date. *)
Definition dateMatches (c : DateCond) (o : option Date) : bool :=
  match o with
  | None => false
  | Some d =>
      match c with
      | DateLt x => (d <? x)%Z
      | DateGte x => (x <=? d)%Z
      | DateBetween lo hi => (lo <=? d)%Z && (d <=? hi)%Z
      end
  end.

(** An absent key constrains nothing. *)
Definition holds {C V : Type} (f : C → V → bool) (o : option C) (v : V) : bool :=
  match o with
  | None => true
  | Some c => f c v
  end.

Definition matches (q : TaskQuery) (kv : ObjectId * Task) : bool :=
  holds idMatches (q_id q) kv.1 &&
  holds (λ u v, bool_decide (v = u)) (q_user q) (user kv.2) &&
  holds statusMatches (q_status q) (status kv.2) &&
  holds (λ p v, bool_decide (v = p)) (q_priority q) (priority kv.2) &&
  holds dateMatches (q_deadline q) (Some (deadline kv.2)) &&
  holds dateMatches (q_createdAt q) (Some (createdAt kv.2)) &&
  holds dateMatches (q_completedAt q) (completedAt kv.2).

(** ** The store *)

Record DB := mkDB {
  tasks : gmap ObjectId Task;
  next_id : ObjectId
}.

Definition emptyDB : DB := mkDB ∅ 0.

(** Every stored identifier was issued by the counter. *)
Definition db_wf (db : DB) : Prop :=
  ∀ i, is_Some (tasks db !! i) → i < next_id db.

(** ** Mongoose model operations *)

(** [Task.find(q)] before sorting: the matching documents. *)
Definition find (q : TaskQuery) (m : gmap ObjectId Task) : gmap ObjectId Task :=
  filter (λ kv, Is_true (matches q kv)) m.

(** [Task.countDocuments(q)] *)
Definition countDocuments (q : TaskQuery) (m : gmap ObjectId Task) : nat :=
  size (find q m).

(** [Task.findOne(q)] for the queries of the routes, which all fix [_id]. *)
Definition findOne (i : ObjectId) (q : TaskQuery) (m : gmap ObjectId Task) : option Task :=
  match m !! i with
  | Some t => if matches (with_id (IdEq i) q) (i, t) then Some t else None
  | None => None
  end.

(** [.sort({ deadline: 1, createdAt: -1 })].  Mongo leaves the order of
    documents that tie on both keys open; here they keep the order in which
    the collection enumerates them. *)
Definition deadline_then_recent (a b : ObjectId * Task) : Prop :=
  (deadline a.2 < deadline b.2)%Z ∨
  (deadline a.2 = deadline b.2 ∧ createdAt b.2 ≤ createdAt a.2)%Z.

#[global] Instance deadline_then_recent_dec : RelDecision deadline_then_recent.
Proof. intros a b. unfold deadline_then_recent. apply _. Defined.

Definition sortByDeadline (l : list (ObjectId * Task)) : list (ObjectId * Task) :=
  merge_sort deadline_then_recent l.

(** [Task.find(q).skip(s).limit(n).sort(...)]: sorted first, then skipped
    and limited.  The routes only pass a limit of at least one. *)
Definition findPage (q : TaskQuery) (s n : nat) (m : gmap ObjectId Task)
  : list (ObjectId * Task) :=
  take n (drop s (sortByDeadline (map_to_list (find q m)))).

(** The [pre('save')] middleware of the schema. [statusModified] is
    [this.isModified('status')]. *)
Definition preSave (now : Date) (statusModified : bool) (t : Task) : Task :=
  if statusModified then
    if bool_decide (status t = Completed) && bool_decide (completedAt t = None)
    then set_completedAt (Some now) t
    else if negb (bool_decide (status t = Completed))
         then set_completedAt None t
         else t
  else t.

(** The validators of the schema on a whole document: [required] and
    [maxlength] on the trimmed strings and the deadline validator
    [value > new Date()]. *)
Definition schemaValid (now : Date) (t : Task) : bool :=
  isLength 1 200 (title t) && isLength 1 1000 (description t) &&
  (now <? deadline t)%Z &&
  forallb (isLength 0 50) (tags t).

(** [new Task(body)]: the schema defaults fill the absent keys, [trim: true]
    trims the strings; [None] when a key without default is missing, in
    which case [required] fails. *)
Definition newTask (now : Date) (b : TaskBody) (uid : ObjectId) : option Task :=
  match b_title b, b_description b, b_deadline b with
  | Some ti, Some de, Some dl =>
      Some (mkTask uid (trim ti) (trim de)
                   (default Pending (b_status b))
                   dl
                   (default Medium (b_priority b))
                   (map trim (default [] (b_tags b)))
                   None now now)
  | _, _, _ => None
  end.

(** [Task.create(body)]: build the document, validate it, run the
    [pre('save')] hook and insert it under a fresh [_id]. A path given in
    the body counts as modified, a defaulted one does not. [None] is a
    thrown Mongoose ValidationError. *)
Definition create (now : Date) (b : TaskBody) (uid : ObjectId) (db : DB)
  : option (DB * (ObjectId * Task)) :=
  match newTask now b uid with
  | Some t =>
      if schemaValid now t then
        let t' := preSave now (bool_decide (b_status b ≠ None)) t in
        Some (mkDB (<[next_id db := t']> (tasks db)) (S (next_id db)),
              (next_id db, t'))
      else None
  | None => None
  end.

(** The update validators ([runValidators: true]) of the paths an update
    sets: [maxlength] and the deadline validator. *)
Definition updateValid (now : Date) (b : TaskBody) : bool :=
  optionalLength 0 200 (b_title b) &&
  optionalLength 0 1000 (b_description b) &&
  match b_deadline b with
  | Some d => (now <? d)%Z
  | None => true
  end &&
  validTags (b_tags b).

(** The [$set] of the keys of the body, plus [updatedAt] of
    [timestamps: true].  No other path is written. *)
Definition applyUpdate (now : Date) (b : TaskBody) (t : Task) : Task :=
  mkTask (user t)
         (default (title t) (trim <$> b_title b))
         (default (description t) (trim <$> b_description b))
         (default (status t) (b_status b))
         (default (deadline t) (b_deadline b))
         (default (priority t) (b_priority b))
         (default (tags t) (map trim <$> b_tags b))
         (completedAt t)
         (createdAt t)
         now.

(** [Task.findByIdAndUpdate(id, body, { new: true, runValidators: true })]:
    a query-level update, which runs the update validators and writes the
    document in place; document middleware such as [pre('save')] is not
    run by it.  [None] is a thrown ValidationError; otherwise the new
    collection and the updated document ([null] when [id] is unknown). *)
Definition findByIdAndUpdate (now : Date) (i : ObjectId) (b : TaskBody)
    (m : gmap ObjectId Task) : option (gmap ObjectId Task * option Task) :=
  if updateValid now b then
    match m !! i with
    | Some t => let t' := applyUpdate now b t in Some (<[i := t']> m, Some t')
    | None => Some (m, None)
    end
  else None.

(** [Task.findByIdAndDelete(id)] *)
Definition findByIdAndDelete (i : ObjectId) (m : gmap ObjectId Task)
  : gmap ObjectId Task :=
  delete i m.

(** [Task.updateMany(q, update)]: [f] is the [$set] of the update document;
    [timestamps: true] adds [updatedAt].  [modifiedCount] counts the matched
    documents that the write changed. *)
Definition updateMany (now : Date) (q : TaskQuery) (f : Task → Task)
    (m : gmap ObjectId Task) : gmap ObjectId Task * nat :=
  let write t := set_updatedAt now (f t) in
  (map_imap (λ i t, Some (if matches q (i, t) then write t else t)) m,
   size (filter (λ kv, Is_true (matches q kv) ∧ write kv.2 ≠ kv.2) m)).

(** ** Replies of the handlers *)

Inductive Reply (A : Type) :=
  | Success (a : A)
    (* res.status(200 or 201).json({ success: true, ... }) *)
  | ValidationFailed
    (* res.status(400).json({ success: false, message: 'Validation failed' }) *)
  | ErrorResponse (message : string) (statusCode : nat)
    (* next(new ErrorResponse(message, statusCode)) *)
  | Thrown.
    (* an exception of Mongoose, left to the error middleware *)
Arguments Success {A} a.
Arguments ValidationFailed {A}.
Arguments ErrorResponse {A} message statusCode.
Arguments Thrown {A}.

(** The error kinds of the specification. *)
Definition NotFound {A} (r : Reply A) : Prop :=
  ∃ msg, r = ErrorResponse msg 404.


(** The three error responses the task routes pass to [next]. *)
Definition taskNotFound {A} : Reply A :=
  ErrorResponse "Task not found" 404.

Definition deadlineNotFuture {A} : Reply A :=
  ErrorResponse "Deadline must be in the future" 400.

Definition someTasksNotFound {A} : Reply A :=
  ErrorResponse "Some tasks not found or do not belong to user" 404.

(** ** GET /api/tasks/:id *)

Definition getTask (uid i : ObjectId) (db : DB) : Reply (ObjectId * Task) :=
  match findOne i (byUser uid) (tasks db) with
  | None => taskNotFound
  | Some task => Success (i, task)
  end.

(** ** POST /api/tasks *)

Definition createTask (now : Date) (uid : ObjectId) (body : TaskBody) (db : DB)
  : DB * Reply (ObjectId * Task) :=
  if negb (validCreate body) then (db, ValidationFailed) else
  let body := sanitize body in
  (* Check if deadline is in the future *)
  if match b_deadline body with Some d => (d <=? now)%Z | None => false end
  then (db, deadlineNotFuture)
  else
    match create now body uid db with
    | Some (db', task) => (db', Success task)
    | None => (db, Thrown)
    end.

(** ** PUT /api/tasks/:id *)

Definition updateTask (now : Date) (uid i : ObjectId) (body : TaskBody) (db : DB)
  : DB * Reply (ObjectId * Task) :=
  if negb (validUpdate body) then (db, ValidationFailed) else
  let body := sanitize body in
  match findOne i (byUser uid) (tasks db) with
  | None => (db, taskNotFound)
  | Some _ =>
      (* Check if deadline is in the future (only if updating deadline) *)
      if match b_deadline body with Some d => (d <=? now)%Z | None => false end
      then (db, deadlineNotFuture)
      else
        match findByIdAndUpdate now i body (tasks db) with
        | Some (m, Some task) => (mkDB m (next_id db), Success (i, task))
        | Some (m, None) => (mkDB m (next_id db), Thrown)
          (* dead branch: the document was found by [findOne] just above *)
        | None => (db, Thrown)
        end
  end.

(** ** DELETE /api/tasks/:id *)

Definition deleteTask (uid i : ObjectId) (db : DB) : DB * Reply unit :=
  match findOne i (byUser uid) (tasks db) with
  | None => (db, taskNotFound)
  | Some _ => (mkDB (findByIdAndDelete i (tasks db)) (next_id db), Success ())
  end.

(** ** PATCH /api/tasks/bulk/status *)

(** The update document of the route:
    [{ status, completedAt: new Date() }] for Completed,
    [{ status, completedAt: null }] otherwise. *)
Definition bulkSet (now : Date) (st : Status) (t : Task) : Task :=
  set_completedAt (if bool_decide (st = Completed) then Some now else None)
                  (set_status st t).

Definition bulkUpdateStatus (now : Date) (uid : ObjectId)
    (taskIds : list ObjectId) (st : Status) (db : DB) : DB * Reply nat :=
  (* body('taskIds').isArray({ min: 1 }) *)
  if bool_decide (taskIds = []) then (db, ValidationFailed) else
  (* Verify all tasks belong to the user *)
  let query := with_id (IdIn taskIds) (byUser uid) in
  let found := find query (tasks db) in
  if negb (size found =? length taskIds) then
    (db, someTasksNotFound)
  else
    (* Update all tasks *)
    let '(m, modifiedCount) := updateMany now query (bulkSet now st) (tasks db) in
    (mkDB m (next_id db), Success modifiedCount).

(** ** GET /api/tasks *)

(** [req.query]; an absent parameter is [None]. *)
Record ListQuery := mkListQuery {
  lq_status : option Status;
  lq_priority : option Priority;
  lq_overdue : option string;
  lq_page : option Z;
  lq_limit : option Z
}.

(** [isBoolean()] of validator.js in its strict form. *)
Definition isBoolean (s : string) : bool :=
  bool_decide (s ∈ ["true"; "false"; "1"; "0"]).

(** [isInt({ min, max })] on a parameter that is already an integer. *)
Definition isInt (min : Z) (max : option Z) (n : Z) : bool :=
  (min <=? n)%Z && match max with Some h => (n <=? h)%Z | None => true end.

Definition validList (rq : ListQuery) : bool :=
  match lq_overdue rq with Some s => isBoolean s | None => true end &&
  match lq_page rq with Some p => isInt 1 None p | None => true end &&
  match lq_limit rq with Some l => isInt 1 (Some 100%Z) l | None => true end.

(** [parseInt(x, 10) || d]: [d] replaces both a missing parameter (NaN) and
    zero. *)
Definition parseIntOr (o : option Z) (d : Z) : Z :=
  match o with
  | Some n => if (n =? 0)%Z then d else n
  | None => d
  end.

(** The [filters] object of the route and of [getUserTasks]. *)
Record Filters := mkFilters {
  f_status : option Status;
  f_priority : option Priority;
  f_overdue : bool
}.

(** [if (req.query.status) filters.status = ...;
     if (req.query.priority) filters.priority = ...;
     if (req.query.overdue === 'true') filters.overdue = true;] *)
Definition buildFilters (rq : ListQuery) : Filters :=
  mkFilters (lq_status rq) (lq_priority rq)
            (bool_decide (lq_overdue rq = Some "true")).

(** The query of the route, and word for word that of [getUserTasks]:
    [const query = { user };
     if (filters.status) query.status = filters.status;
     if (filters.priority) query.priority = filters.priority;
     if (filters.overdue) {
       query.deadline = { $lt: new Date() };
       query.status = { $ne: 'Completed' };
     }] *)
Definition buildQuery (now : Date) (uid : ObjectId) (filters : Filters) : TaskQuery :=
  let query := byUser uid in
  let query :=
    match f_status filters with
    | Some s => with_status (StatusEq s) query
    | None => query
    end in
  let query :=
    match f_priority filters with
    | Some p => with_priority p query
    | None => query
    end in
  if f_overdue filters then
    with_status (StatusNe Completed) (with_deadline (DateLt now) query)
  else query.

(** [taskSchema.statics.getUserTasks] *)
Definition getUserTasks (now : Date) (userId : ObjectId) (filters : Filters)
    (m : gmap ObjectId Task) : list (ObjectId * Task) :=
  sortByDeadline (map_to_list (find (buildQuery now userId filters) m)).

Record PageRef := mkPageRef { page : Z; limit : Z }.

Record Pagination := mkPagination {
  next : option PageRef;
  prev : option PageRef
}.

Record TaskList := mkTaskList {
  count : nat;
  total : nat;
  pagination : Pagination;
  listed : list (ObjectId * Task)      (* the [tasks] key of the reply *)
}.

Definition listTasks (now : Date) (uid : ObjectId) (rq : ListQuery) (db : DB)
  : Reply TaskList :=
  if negb (validList rq) then ValidationFailed else
  let page := parseIntOr (lq_page rq) 1 in
  let limit := parseIntOr (lq_limit rq) 25 in
  let startIndex := ((page - 1) * limit)%Z in
  let filters := buildFilters rq in
  let query := buildQuery now uid filters in
  let total := countDocuments query (tasks db) in
  let found := findPage query (Z.to_nat startIndex) (Z.to_nat limit) (tasks db) in
  let pagination :=
    mkPagination
      (if (startIndex + limit <? Z.of_nat total)%Z
       then Some (mkPageRef (page + 1) limit) else None)
      (if (0 <? startIndex)%Z
       then Some (mkPageRef (page - 1) limit) else None) in
  Success (mkTaskList (length found) total pagination found).

(** ** GET /api/tasks/stats/overview *)

(** The [$match]/[$group] pipeline of [getUserTaskStats]: one
    [{ _id: status, count }] per status that occurs. *)
Definition aggregateByStatus (userId : ObjectId) (m : gmap ObjectId Task)
  : list (Status * nat) :=
  filter (λ g, g.2 ≠ 0)
    ((λ s, (s, countDocuments (with_status (StatusEq s) (byUser userId)) m))
       <$> [Pending; InProgress; Completed]).

Record StatusCounts := mkStatusCounts {
  sc_total : nat;
  sc_pending : nat;
  sc_inProgress : nat;
  sc_completed : nat
}.

(** [taskSchema.statics.getUserTaskStats] *)
Definition getUserTaskStats (userId : ObjectId) (m : gmap ObjectId Task)
  : StatusCounts :=
  foldl (λ result stat,
           let tot := sc_total result + stat.2 in
           match stat.1 with
           | Pending =>
               mkStatusCounts tot stat.2 (sc_inProgress result) (sc_completed result)
           | InProgress =>
               mkStatusCounts tot (sc_pending result) stat.2 (sc_completed result)
           | Completed =>
               mkStatusCounts tot (sc_pending result) (sc_inProgress result) stat.2
           end)
        (mkStatusCounts 0 0 0 0)
        (aggregateByStatus userId m).

(** A count as a JavaScript number (exact below 2^53). *)
Definition toNumber (n : nat) : float :=
  PrimFloat.of_uint63 (Uint63.of_Z (Z.of_nat n)).

(** [Math.round]: the integer nearest to the exact value of the double,
    a tie going towards +infinity; [None] for NaN and the infinities. *)
Definition Math_round (x : float) : option Z :=
  match Prim2SF x with
  | S754_zero _ => Some 0%Z
  | S754_finite s m e =>
      let num := if s then Z.neg m else Z.pos m in
      if (0 <=? e)%Z then Some (num * 2 ^ e)%Z
      else Some ((2 * num + 2 ^ (- e)) / 2 ^ (- e + 1))%Z
  | _ => None
  end.

(** [tasksLast30Days > 0
       ? Math.round((completedLast30Days / tasksLast30Days) * 100) : 0] *)
Definition completionRate (completedLast30Days tasksLast30Days : nat) : option Z :=
  if 0 <? tasksLast30Days then
    Math_round (PrimFloat.mul
                  (PrimFloat.div (toNumber completedLast30Days)
                                 (toNumber tasksLast30Days))
                  (toNumber 100))
  else Some 0%Z.

(** [d.setDate(d.getDate() + n)] on a server whose days all have 24 hours. *)
Definition addDays (d : Date) (n : Z) : Date := (d + n * 86400000)%Z.

Definition tasksLast30Days (now : Date) (uid : ObjectId) (m : gmap ObjectId Task) : nat :=
  countDocuments (with_createdAt (DateGte (addDays now (-30))) (byUser uid)) m.

Definition completedLast30Days (now : Date) (uid : ObjectId) (m : gmap ObjectId Task) : nat :=
  countDocuments
    (with_completedAt (DateGte (addDays now (-30)))
       (with_status (StatusEq Completed) (byUser uid))) m.

Record Stats := mkStats {
  st_counts : StatusCounts;            (* ...stats *)
  st_overdue : nat;
  st_dueThisWeek : nat;
  st_completionRate : option Z
}.

Definition getStats (now : Date) (uid : ObjectId) (db : DB) : Reply Stats :=
  let stats := getUserTaskStats uid (tasks db) in
  let overdueTasks :=
    countDocuments
      (with_status (StatusNe Completed)
         (with_deadline (DateLt now) (byUser uid))) (tasks db) in
  let oneWeekFromNow := addDays now 7 in
  let dueThisWeek :=
    countDocuments
      (with_status (StatusNe Completed)
         (with_deadline (DateBetween now oneWeekFromNow) (byUser uid)))
      (tasks db) in
  Success (mkStats stats overdueTasks dueThisWeek
             (completionRate (completedLast30Days now uid (tasks db))
                             (tasksLast30Days now uid (tasks db)))).

(** ** Requests and runs of the API *)

Inductive Request :=
  | ListTasks (uid : ObjectId) (rq : ListQuery)
  | GetTask (uid i : ObjectId)
  | CreateTask (uid : ObjectId) (body : TaskBody)
  | UpdateTask (uid i : ObjectId) (body : TaskBody)
  | DeleteTask (uid i : ObjectId)
  | GetStats (uid : ObjectId)
  | BulkUpdateStatus (uid : ObjectId) (taskIds : list ObjectId) (st : Status).

(** The store after a request served at instant [now]. *)
Definition serve (now : Date) (r : Request) (db : DB) : DB :=
  match r with
  | ListTasks _ _ | GetTask _ _ | GetStats _ => db
  | CreateTask uid body => (createTask now uid body db).1
  | UpdateTask uid i body => (updateTask now uid i body db).1
  | DeleteTask uid i => (deleteTask uid i db).1
  | BulkUpdateStatus uid ids st => (bulkUpdateStatus now uid ids st db).1
  end.

(** The store after a sequence of requests, each with its instant. *)
Definition run (trace : list (Date * Request)) (db : DB) : DB :=
  foldl (λ d e, serve e.1 e.2 d) db trace.

(** The stores the API can reach from the empty collection. *)
Inductive reachable : DB → Prop :=
  | reachable_empty : reachable emptyDB
  | reachable_serve now r db : reachable db → reachable (serve now r db).

(** ** Auxiliary notions used by the proofs *)

(** A string that does not begin with white space. *)
Definition no_leading_space (s : string) : Prop :=
  match s with
  | EmptyString => True
  | String c _ => is_space c = false
  end.

(** The five ways in which a request may leave the store. *)
Inductive store_step (db db' : DB) : Prop :=
  | step_same : db' = db → store_step db db'
  | step_insert t :
      db' = mkDB (<[next_id db := t]> (tasks db)) (S (next_id db)) →
      store_step db db'
  | step_replace i t t' :
      tasks db !! i = Some t →
      db' = mkDB (<[i := t']> (tasks db)) (next_id db) →
      store_step db db'
  | step_delete i :
      db' = mkDB (delete i (tasks db)) (next_id db) → store_step db db'
  | step_rewrite (f : ObjectId → Task → Task) :
      db' = mkDB (map_imap (λ i t, Some (f i t)) (tasks db)) (next_id db) →
      store_step db db'.




(** The formula of the specification for the completion rate, in exact
    arithmetic: [round(100 * completed / created)], a half rounding up as
    [Math.round] does, and 0 when nothing was created. *)
Definition spec_completionRate (completed created : nat) : Z :=
  if created =? 0 then 0%Z
  else ((2 * (100 * Z.of_nat completed) + Z.of_nat created)
        / (2 * Z.of_nat created))%Z.

(** Whether [completionRate] and the formula agree for a denominator and
    every numerator up to it. *)
Definition agree_upto (created : nat) : bool :=
  forallb (λ c, bool_decide (completionRate c created
                             = Some (spec_completionRate c created)))
          (seq 0 (S created)).

(** ** Sample requests and stores *)

Definition alice : ObjectId := 7.

Definition sampleBody (d : Date) (st : option Status) : TaskBody :=
  mkBody (Some "Write report") (Some "Quarterly figures") (Some d) None st None.

(** [n] tasks of alice, all created at instant 0 and due at 1000. *)
Definition seeded (n : nat) : DB :=
  run (replicate n (0%Z, CreateTask alice (sampleBody 1000 None))) emptyDB.

(** Four tasks of alice: In Progress, Completed and Pending, all due at 100,
    and a Pending one due at 900. *)
Definition mixedDB : DB :=
  run [(0%Z, CreateTask alice (sampleBody 100 (Some InProgress)));
       (0%Z, CreateTask alice (sampleBody 100 (Some Completed)));
       (0%Z, CreateTask alice (sampleBody 100 None));
       (0%Z, CreateTask alice (sampleBody 900 None))] emptyDB.


(** [?overdue=true] *)
Definition onlyOverdue : ListQuery :=
  mkListQuery None None (Some "true") None None.


(** The body [{ status: 'Completed' }]. *)
Definition markCompleted : TaskBody :=
  mkBody None None None None (Some Completed) None.

(** The body [{ status: 'Pending' }]. *)
Definition markPending : TaskBody :=
  mkBody None None None None (Some Pending) None.

(** A task is created Pending at instant 0 and set to Completed by a PUT at
    instant 50. *)
Definition completedByUpdate : DB :=
  run [(0%Z, CreateTask alice (sampleBody 1000 None));
       (50%Z, UpdateTask alice 0 markCompleted)] emptyDB.

(** A task is created Completed at instant 0 and set back to Pending by a
    PUT at instant 50. *)
Definition reopenedByUpdate : DB :=
  run [(0%Z, CreateTask alice (sampleBody 1000 (Some Completed)));
       (50%Z, UpdateTask alice 0 markPending)] emptyDB.

(** The task of [completedByUpdate] is set back to Pending by a second PUT
    at instant 60. *)
Definition completedThenPending : DB :=
  run [(60%Z, UpdateTask alice 0 markPending)] completedByUpdate.

(** Forty tasks created at instant 0, of which the first twenty-three are
    completed by one bulk update at instant 10. *)
Definition busyMonth : DB :=
  run (replicate 40 (0%Z, CreateTask alice (sampleBody 1000 None))
       ++ [(10%Z, BulkUpdateStatus alice (seq 0 23) Completed)]) emptyDB.



(** ** More of the schema and of the routes *)

(** [taskSchema.virtual('isOverdue')]:
    [if (this.status === 'Completed') return false;
     return new Date() > this.deadline;] *)
Definition isOverdue (now : Date) (t : Task) : bool :=
  if bool_decide (status t = Completed) then false
  else (deadline t <? now)%Z.

(** The count [recentCompletions] of GET /api/profiles/me/stats: Completed
    tasks whose completedAt is within the last seven days. *)
Definition recentCompletions (now : Date) (uid : ObjectId)
    (m : gmap ObjectId Task) : nat :=
  countDocuments
    (with_completedAt (DateGte (addDays now (-7)))
       (with_status (StatusEq Completed) (byUser uid))) m.

Record ProfileStats := mkProfileStats {
  ps_counts : StatusCounts;            (* ...taskStats *)
  ps_overdue : nat;
  ps_dueThisWeek : nat;
  ps_recentCompletions : nat
}.

(** GET /api/profiles/me/stats *)
Definition profileStats (now : Date) (uid : ObjectId) (db : DB)
  : Reply ProfileStats :=
  let taskStats := getUserTaskStats uid (tasks db) in
  let overdueTasks :=
    countDocuments
      (with_status (StatusNe Completed)
         (with_deadline (DateLt now) (byUser uid))) (tasks db) in
  let oneWeekFromNow := addDays now 7 in
  let tasksThisWeek :=
    countDocuments
      (with_status (StatusNe Completed)
         (with_deadline (DateBetween now oneWeekFromNow) (byUser uid)))
      (tasks db) in
  Success (mkProfileStats taskStats overdueTasks tasksThisWeek
             (recentCompletions now uid (tasks db))).

(** The user on whose behalf a request is served ([req.user.id]). *)
Definition caller (r : Request) : ObjectId :=
  match r with
  | ListTasks uid _ | GetTask uid _ | CreateTask uid _ | UpdateTask uid _ _
  | DeleteTask uid _ | GetStats uid | BulkUpdateStatus uid _ _ => uid
  end.

(** The length bounds of the schema on a stored document. *)
Definition within_bounds (t : Task) : bool :=
  isLength 1 200 (title t) && isLength 1 1000 (description t) &&
  forallb (isLength 0 50) (tags t).

Definition bob : ObjectId := 8.

(** ** The client state of [TaskContext.tsx] *)

Module Client.

(** The [Task] of the client, as [fetchTasks] builds it from a row. *)
Record Task := mkTask {
  id : string;
  title : string;
  description : string;
  status : Status;
  deadline : Date;
  createdAt : Date;
  updatedAt : Date
}.

(** [String.prototype.toLowerCase] on ASCII. *)
Definition lower (c : ascii) : ascii :=
  let n := nat_of_ascii c in
  if (65 <=? n) && (n <=? 90) then ascii_of_nat (n + 32) else c.

Fixpoint toLowerCase (s : string) : string :=
  match s with
  | EmptyString => EmptyString
  | String c r => String (lower c) (toLowerCase r)
  end.

(** [s.includes(q)] *)
Fixpoint includes (s q : string) : bool :=
  String.prefix q s ||
  match s with
  | EmptyString => false
  | String _ r => includes r q
  end.

(** The predicate of [filteredTasks]; [statusFilter] is [None] for 'All'. *)
Definition shown (statusFilter : option Status) (searchQuery : string)
    (task : Task) : bool :=
  let matchesStatus :=
    match statusFilter with
    | None => true
    | Some s => bool_decide (status task = s)
    end in
  let matchesSearch :=
    includes (toLowerCase (title task)) (toLowerCase searchQuery) ||
    includes (toLowerCase (description task)) (toLowerCase searchQuery) in
  matchesStatus && matchesSearch.

(** [const filteredTasks = tasks.filter(task => ...)] *)
Definition filteredTasks (statusFilter : option Status) (searchQuery : string)
    (tasks : list Task) : list Task :=
  List.filter (shown statusFilter searchQuery) tasks.

(** [setTasks(prev => [newTask, ...prev])] of [addTask] *)
Definition added (newTask : Task) (prev : list Task) : list Task :=
  newTask :: prev.

(** [setTasks(prev => prev.map(task => task.id === id ? updatedTask : task))]
    of [updateTask] *)
Definition updated (i : string) (updatedTask : Task) (prev : list Task)
  : list Task :=
  map (λ task, if bool_decide (id task = i) then updatedTask else task) prev.

(** [setTasks(prev => prev.filter(task => task.id !== id))] of [deleteTask] *)
Definition removed (i : string) (prev : list Task) : list Task :=
  List.filter (λ task, negb (bool_decide (id task = i))) prev.

(** The predicate of the overdue count and of the card's [isOverdue]:
    [new Date(task.deadline) < new Date() && task.status !== COMPLETED] *)
Definition isOverdue (now : Date) (task : Task) : bool :=
  (deadline task <? now)%Z && negb (bool_decide (status task = Completed)).

(** The [stats] object of [TaskStats.tsx]. *)
Record Counts := mkCounts {
  total : nat;
  pending : nat;
  inProgress : nat;
  completed : nat;
  overdue : nat
}.

Definition stats (now : Date) (tasks : list Task) : Counts :=
  let having s := length (List.filter (λ task, bool_decide (status task = s)) tasks) in
  mkCounts (length tasks) (having Pending) (having InProgress) (having Completed)
           (length (List.filter (isOverdue now) tasks)).

End Client.


(** The same query string without [overdue]. *)
Definition without_overdue (rq : ListQuery) : ListQuery :=
  mkListQuery (lq_status rq) (lq_priority rq) None (lq_page rq) (lq_limit rq).

(** Two rows of the client: a Pending and an In Progress task. *)
Definition sampleRows : list Client.Task :=
  [Client.mkTask "a1" "Write report" "Quarterly figures" Pending 1000 0 0;
   Client.mkTask "b2" "Call supplier" "About the invoice" InProgress 500 0 0].

(** The first row as the server returns it once it is Completed. *)
Definition completedRow : Client.Task :=
  Client.mkTask "a1" "Write report" "Quarterly figures" Completed 1000 0 70.

(** A row that is not among [sampleRows]. *)
Definition newRow : Client.Task :=
  Client.mkTask "c3" "Book room" "For the review" Pending 2000 90 90.

(** * Properties *)

(** Case analysis on membership in a literal list. *)
Ltac elem_cases H :=
  repeat (apply elem_of_cons in H as [->|H]); try (by apply elem_of_nil in H).

(** ** The sanitizer [trim] *)

Section trim_lemmas.
Implicit Types (s : string) (c : ascii).

Lemma rtrim_idemp s : rtrim (rtrim s) = rtrim s.
Proof.
  induction s as [|c r IH]; simpl; [done|].
  destruct (rtrim r) as [|c' r'] eqn:E.
  - destruct (is_space c) eqn:Hc; simpl; [done|]. by rewrite Hc.
  - simpl in *. by rewrite IH.
Qed.

Lemma ltrim_no_leading_space s : no_leading_space (ltrim s).
Proof.
  induction s as [|c r IH]; simpl; [done|].
  by destruct (is_space c) eqn:Hc.
Qed.

Lemma ltrim_id s : no_leading_space s → ltrim s = s.
Proof. destruct s as [|c r]; simpl; [done|]. by intros ->. Qed.

Lemma rtrim_no_leading_space s :
  no_leading_space s → no_leading_space (rtrim s).
Proof.
  destruct s as [|c r]; simpl; [done|]. intros Hc.
  destruct (rtrim r); rewrite ?Hc; done.
Qed.

(** Trimming twice, once by the validation chain and once by the schema,
    is trimming once. *)
Lemma trim_idemp s : trim (trim s) = trim s.
Proof.
  unfold trim. rewrite (ltrim_id (rtrim (ltrim s))).
  - apply rtrim_idemp.
  - apply rtrim_no_leading_space, ltrim_no_leading_space.
Qed.

Lemma validTags_sanitized o :
  validTags o = true →
  forallb (isLength 0 50) (map trim (default [] (map trim <$> o))) = true.
Proof.
  destruct o as [l|]; simpl; [|done].
  induction l as [|x l IH]; simpl; [done|].
  rewrite !andb_true_iff. intros [Hx Hl]. rewrite trim_idemp. auto.
Qed.

Lemma validTags_sanitize o : validTags (map trim <$> o) = validTags o.
Proof.
  destruct o as [l|]; simpl; [|done].
  induction l as [|x l IH]; simpl; [done|]. by rewrite trim_idemp, IH.
Qed.
End trim_lemmas.

(** ** Queries on the collection *)

Section store_lemmas.
Implicit Types (m : gmap ObjectId Task) (q : TaskQuery) (t : Task)
               (i uid : ObjectId) (ids : list ObjectId).

Lemma find_lookup q m i t :
  find q m !! i = Some t ↔ m !! i = Some t ∧ matches q (i, t) = true.
Proof.
  unfold find. rewrite map_lookup_filter_Some. simpl.
  by rewrite Is_true_true.
Qed.

Lemma elem_of_sortByDeadline (l : list (ObjectId * Task)) kv :
  kv ∈ sortByDeadline l ↔ kv ∈ l.
Proof. unfold sortByDeadline. by rewrite merge_sort_Permutation. Qed.

Lemma length_sortByDeadline (l : list (ObjectId * Task)) :
  length (sortByDeadline l) = length l.
Proof. unfold sortByDeadline. by rewrite merge_sort_Permutation. Qed.

(** A listed document is stored and matches the query. *)
Lemma elem_of_findPage q s n m kv :
  kv ∈ findPage q s n m → m !! kv.1 = Some kv.2 ∧ matches q kv = true.
Proof.
  unfold findPage. intros H%subseteq_take%subseteq_drop.
  apply (proj1 (elem_of_sortByDeadline _ _)) in H. destruct kv as [i t].
  apply elem_of_map_to_list in H. by apply find_lookup in H.
Qed.

Lemma length_findPage q s n m :
  length (findPage q s n m) = n `min` (countDocuments q m - s).
Proof.
  unfold findPage, countDocuments.
  by rewrite length_take, length_drop, length_sortByDeadline,
             length_map_to_list.
Qed.

Lemma findOne_Some i uid m t :
  findOne i (byUser uid) m = Some t ↔ m !! i = Some t ∧ user t = uid.
Proof.
  unfold findOne. destruct (m !! i) as [t0|]; [|split; [done|by intros [? _]]].
  unfold matches, holds. simpl. rewrite !andb_true_r.
  rewrite bool_decide_eq_true_2 by done. simpl.
  case_bool_decide as Hu; split.
  - by intros [= ->].
  - by intros [[= ->] _].
  - done.
  - by intros [[= ->] ?].
Qed.

Lemma matches_owned_in ids uid i t :
  matches (with_id (IdIn ids) (byUser uid)) (i, t) = true ↔
  i ∈ ids ∧ user t = uid.
Proof.
  unfold matches, holds. simpl. rewrite !andb_true_r, andb_true_iff.
  by rewrite !bool_decide_eq_true.
Qed.

Lemma find_owned_in ids uid m i t :
  find (with_id (IdIn ids) (byUser uid)) m !! i = Some t ↔
  i ∈ ids ∧ findOne i (byUser uid) m = Some t.
Proof. rewrite find_lookup, matches_owned_in, findOne_Some. tauto. Qed.
End store_lemmas.

(** ** GET /api/tasks: filters and pagination *)

Lemma listTasks_Success now uid rq db r :
  listTasks now uid rq db = Success r →
  validList rq = true ∧
  let page := parseIntOr (lq_page rq) 1 in
  let limit := parseIntOr (lq_limit rq) 25 in
  let startIndex := ((page - 1) * limit)%Z in
  let query := buildQuery now uid (buildFilters rq) in
  r = mkTaskList
        (length (findPage query (Z.to_nat startIndex) (Z.to_nat limit) (tasks db)))
        (countDocuments query (tasks db))
        (mkPagination
           (if (startIndex + limit <? Z.of_nat (countDocuments query (tasks db)))%Z
            then Some (mkPageRef (page + 1) limit) else None)
           (if (0 <? startIndex)%Z
            then Some (mkPageRef (page - 1) limit) else None))
        (findPage query (Z.to_nat startIndex) (Z.to_nat limit) (tasks db)).
Proof.
  unfold listTasks. destruct (validList rq); simpl; [|done].
  by intros [= <-].
Qed.

(** The request is answered exactly when its parameters pass validation. *)
Lemma listTasks_validated now uid rq db :
  (validList rq = true → ∃ r, listTasks now uid rq db = Success r) ∧
  (validList rq = false → listTasks now uid rq db = ValidationFailed).
Proof.
  unfold listTasks. split; intros ->; simpl; eauto.
Qed.

Lemma buildQuery_overdue_fields now uid filters :
  f_overdue filters = true →
  q_user (buildQuery now uid filters) = Some uid ∧
  q_status (buildQuery now uid filters) = Some (StatusNe Completed) ∧
  q_deadline (buildQuery now uid filters) = Some (DateLt now).
Proof.
  intros Ho. unfold buildQuery. rewrite Ho.
  by destruct (f_status filters), (f_priority filters).
Qed.

Lemma matches_overdue now uid filters kv :
  f_overdue filters = true →
  matches (buildQuery now uid filters) kv = true →
  user kv.2 = uid ∧ (deadline kv.2 < now)%Z ∧ status kv.2 ≠ Completed.
Proof.
  intros (Hu & Hs & Hd)%(buildQuery_overdue_fields now uid) Hm.
  unfold matches in Hm. rewrite Hu, Hs, Hd in Hm. simpl in Hm.
  rewrite !andb_true_iff in Hm.
  destruct Hm as [[[[[[_ Hu'] Hs'] _] Hd'] _] _].
  apply bool_decide_eq_true in Hu'.
  apply negb_true_iff, bool_decide_eq_false in Hs'.
  by apply Z.ltb_lt in Hd'.
Qed.

(** The static of the model behaves as the route does. *)
Lemma getUserTasks_overdue now uid filters m kv :
  f_overdue filters = true →
  kv ∈ getUserTasks now uid filters m → status kv.2 ≠ Completed.
Proof.
  intros Ho Hkv. unfold getUserTasks in Hkv.
  apply (proj1 (elem_of_sortByDeadline _ _)) in Hkv. destruct kv as [i t].
  apply elem_of_map_to_list, find_lookup in Hkv as [_ Hm].
  by apply matches_overdue in Hm as (_ & _ & ?).
Qed.

(** C8: whatever the other filters, a listing requested with overdue=true
    contains no task whose status is Completed. *)
Theorem overdue_never_completed now uid rq db r :
  lq_overdue rq = Some "true" →
  listTasks now uid rq db = Success r →
  ∀ kv, kv ∈ listed r → status kv.2 ≠ Completed.
Proof.
  intros Ho [_ ->]%listTasks_Success kv Hkv. simpl in Hkv.
  apply elem_of_findPage in Hkv as [_ Hm].
  apply matches_overdue in Hm; [tauto|].
  simpl. by rewrite Ho, bool_decide_eq_true.
Qed.

Lemma overdue_never_completed_witness :
  ∃ r, listTasks 200 alice onlyOverdue mixedDB = Success r ∧
       count r = 2 ∧
       ∀ kv, kv ∈ listed r → status kv.2 ≠ Completed.
Proof.
  eexists. split; [vm_compute; reflexivity|]. split; [reflexivity|].
  apply (overdue_never_completed 200 alice onlyOverdue mixedDB); reflexivity.
Defined.








(** ** PATCH /api/tasks/bulk/status *)

Section bulk_lemmas.
Implicit Types (m : gmap ObjectId Task) (t : Task) (i uid : ObjectId)
               (ids : list ObjectId).

Lemma length_remove_dups_le ids : length (remove_dups ids) ≤ length ids.
Proof.
  induction ids as [|x l IH]; simpl; [done|].
  case_decide; simpl; lia.
Qed.

Lemma length_remove_dups_lt ids :
  ¬ NoDup ids → length (remove_dups ids) < length ids.
Proof.
  induction ids as [|x l IH]; simpl; intros Hnd.
  - destruct Hnd. constructor.
  - pose proof (length_remove_dups_le l).
    case_decide as Hx; simpl; [lia|].
    assert (¬ NoDup l) as Hl by (intros Hl; apply Hnd; by constructor).
    specialize (IH Hl). lia.
Qed.

Lemma size_list_to_set_remove_dups ids :
  size (list_to_set ids : gset ObjectId) = length (remove_dups ids).
Proof.
  rewrite <- (size_list_to_set (C:=gset ObjectId) (remove_dups ids))
    by apply NoDup_remove_dups.
  f_equal. apply set_eq. intros x.
  by rewrite !elem_of_list_to_set, elem_of_remove_dups.
Qed.

Lemma dom_find_owned_in ids uid m :
  dom (find (with_id (IdIn ids) (byUser uid)) m) ⊆ list_to_set ids.
Proof.
  intros i [t Ht]%elem_of_dom. apply find_owned_in in Ht as [Hi _].
  by apply elem_of_list_to_set.
Qed.

(** The ownership check counts documents: there are at most as many as
    there are distinct identifiers in the request. *)
Lemma size_find_owned_in ids uid m :
  size (find (with_id (IdIn ids) (byUser uid)) m) ≤ length (remove_dups ids).
Proof.
  rewrite <- size_list_to_set_remove_dups, <- size_dom.
  apply subseteq_size, dom_find_owned_in.
Qed.

Lemma size_find_unresolved ids uid m i :
  i ∈ ids → findOne i (byUser uid) m = None →
  size (find (with_id (IdIn ids) (byUser uid)) m) < length ids.
Proof.
  intros Hi Hn.
  pose proof (length_remove_dups_le ids).
  rewrite <- size_list_to_set_remove_dups in *.
  rewrite <- size_dom.
  enough (size (dom (find (with_id (IdIn ids) (byUser uid)) m))
          < size (list_to_set ids : gset ObjectId)) by lia.
  apply subset_size. split; [apply dom_find_owned_in|].
  intros Hsub.
  assert (i ∈ dom (find (with_id (IdIn ids) (byUser uid)) m))
    as [t Ht]%elem_of_dom.
  { apply Hsub. by apply elem_of_list_to_set. }
  apply find_owned_in in Ht as [_ Ht]. congruence.
Qed.

Lemma size_find_all_owned ids uid m :
  NoDup ids → (∀ i, i ∈ ids → findOne i (byUser uid) m ≠ None) →
  size (find (with_id (IdIn ids) (byUser uid)) m) = length ids.
Proof.
  intros Hnd Hall.
  rewrite <- (size_list_to_set (C:=gset ObjectId) ids Hnd), <- size_dom.
  f_equal. apply set_eq. intros i.
  rewrite elem_of_list_to_set, elem_of_dom. split.
  - intros [t Ht]. by apply find_owned_in in Ht as [? _].
  - intros Hi. specialize (Hall i Hi).
    destruct (findOne i (byUser uid) m) as [t|] eqn:E; [|done].
    exists t. by apply find_owned_in.
Qed.

Lemma updateMany_lookup now q f m i :
  (updateMany now q f m).1 !! i =
  (λ t, if matches q (i, t) then set_updatedAt now (f t) else t) <$> m !! i.
Proof.
  unfold updateMany. simpl. rewrite map_lookup_imap.
  by destruct (m !! i).
Qed.

(** [modifiedCount] is the number of documents that differ after the
    write. *)
Lemma updateMany_modifiedCount now q f m :
  (updateMany now q f m).2 =
  size (filter (λ kv, (updateMany now q f m).1 !! kv.1 ≠ Some kv.2) m).
Proof.
  unfold updateMany. simpl. f_equal.
  apply map_filter_ext. intros i t Ht. simpl.
  rewrite map_lookup_imap, Ht. simpl.
  destruct (matches q (i, t)); simpl; split.
  - by intros [_ Hne] [= Heq].
  - intros Hne. split; [done|]. congruence.
  - intros [[] _].
  - by intros Hne.
Qed.

End bulk_lemmas.

(** C10: a bulk update whose identifier list repeats an identifier is
    answered 404 and changes nothing, whether or not every identifier
    names a task of the caller, since the number of matching documents is
    compared with the length of the list. *)
Theorem bulk_duplicates_rejected now uid taskIds st db :
  ¬ NoDup taskIds →
  bulkUpdateStatus now uid taskIds st db = (db, someTasksNotFound).
Proof.
  intros Hnd. unfold bulkUpdateStatus.
  case_bool_decide as He; [subst; destruct Hnd; constructor|].
  pose proof (size_find_owned_in taskIds uid (tasks db)).
  pose proof (length_remove_dups_lt taskIds Hnd).
  destruct (Nat.eqb_spec
              (size (find (with_id (IdIn taskIds) (byUser uid)) (tasks db)))
              (length taskIds)); [lia|done].
Qed.

Lemma bulk_duplicates_rejected_witness :
  (∀ i, i ∈ [0; 0] → findOne i (byUser alice) (tasks (seeded 1)) ≠ None) ∧
  bulkUpdateStatus 10 alice [0; 0] Completed (seeded 1)
  = (seeded 1, someTasksNotFound) ∧
  NotFound (bulkUpdateStatus 10 alice [0; 0] Completed (seeded 1)).2.
Proof.
  assert (¬ NoDup [0; 0]) as Hdup.
  { intros [Hnd _]%NoDup_cons. apply Hnd, list_elem_of_here. }
  split; [|split].
  - intros i Hi. elem_cases Hi; by vm_compute.
  - exact (bulk_duplicates_rejected 10 alice [0; 0] Completed (seeded 1) Hdup).
  - rewrite (bulk_duplicates_rejected 10 alice [0; 0] Completed (seeded 1) Hdup).
    by eexists.
Defined.

(** Both identifiers of the request [[0; 0]] name the only task of
    [seeded 1], which alice owns; the request is answered 404. *)
Lemma bulk_repeated_identifier :
  (∀ i, i ∈ [0; 0] → findOne i (byUser alice) (tasks (seeded 1)) ≠ None) ∧
  bulkUpdateStatus 10 alice [0; 0] Completed (seeded 1)
  = (seeded 1, someTasksNotFound).
Proof.
  split; [|vm_compute; reflexivity].
  intros i Hi. elem_cases Hi; by vm_compute.
Qed.

(** An empty identifier list does not pass [isArray({ min: 1 })]. *)
Lemma bulk_empty_rejected now uid st db :
  bulkUpdateStatus now uid [] st db = (db, ValidationFailed).
Proof. done. Qed.

(** C4 as stated fails: identifiers that all name tasks of the caller do
    not make the bulk update succeed. *)
Lemma bulk_needs_distinct_identifiers :
  ¬ (∀ now uid taskIds st db,
       (∀ i, i ∈ taskIds → findOne i (byUser uid) (tasks db) ≠ None) →
       ∃ db' n, bulkUpdateStatus now uid taskIds st db = (db', Success n)).
Proof.
  intros Hall. destruct bulk_repeated_identifier as [Hres Hrej].
  destruct (Hall 10%Z alice [0; 0] Completed (seeded 1) Hres) as (db' & n & H).
  rewrite Hrej in H. discriminate.
Qed.

(** C4, amended: if some identifier of the request does not name a task of
    the caller, the bulk update is answered 404 and the store is unchanged.
    If the list is not empty, repeats no identifier and every identifier
    names a task of the caller, the update succeeds: every named task gets
    the new status, with completedAt set to now for Completed and to null
    otherwise, no other task changes, and the count returned is the number
    of documents that changed. *)
Theorem bulk_all_or_nothing now uid taskIds st db :
  ((∃ i, i ∈ taskIds ∧ findOne i (byUser uid) (tasks db) = None) →
   bulkUpdateStatus now uid taskIds st db = (db, someTasksNotFound)) ∧
  (taskIds ≠ [] → NoDup taskIds →
   (∀ i, i ∈ taskIds → findOne i (byUser uid) (tasks db) ≠ None) →
   ∃ db' n,
     bulkUpdateStatus now uid taskIds st db = (db', Success n) ∧
     (∀ i, i ∈ taskIds →
        ∃ t t', tasks db !! i = Some t ∧ tasks db' !! i = Some t' ∧
                t' = set_updatedAt now (bulkSet now st t) ∧
                status t' = st ∧
                completedAt t' = (if bool_decide (st = Completed)
                                  then Some now else None)) ∧
     (∀ i, i ∉ taskIds → tasks db' !! i = tasks db !! i) ∧
     n = size (filter (λ kv, tasks db' !! kv.1 ≠ Some kv.2) (tasks db))).
Proof.
  split.
  - intros (i & Hi & Hn). unfold bulkUpdateStatus.
    case_bool_decide as He; [subst; by apply elem_of_nil in Hi|].
    pose proof (size_find_unresolved taskIds uid (tasks db) i Hi Hn).
    destruct (Nat.eqb_spec
                (size (find (with_id (IdIn taskIds) (byUser uid)) (tasks db)))
                (length taskIds)); [lia|done].
  - intros Hne Hnd Hall. unfold bulkUpdateStatus.
    rewrite bool_decide_eq_false_2 by done.
    rewrite (size_find_all_owned taskIds uid (tasks db) Hnd Hall).
    rewrite Nat.eqb_refl. simpl.
    set (q := with_id (IdIn taskIds) (byUser uid)).
    pose proof (updateMany_lookup now q (bulkSet now st) (tasks db)) as Hlk.
    pose proof (updateMany_modifiedCount now q (bulkSet now st) (tasks db)) as Hcnt.
    destruct (updateMany now q (bulkSet now st) (tasks db)) as [m n] eqn:E.
    simpl in *. exists (mkDB m (next_id db)), n.
    split; [unfold updateMany in E; by injection E as -> ->|]. simpl.
    split; [|split; [|done]].
    + intros i Hi. specialize (Hall i Hi).
      destruct (findOne i (byUser uid) (tasks db)) as [t|] eqn:Ef; [|done].
      apply findOne_Some in Ef as [Ht Hu].
      exists t, (set_updatedAt now (bulkSet now st t)).
      rewrite Hlk, Ht. simpl.
      assert (matches q (i, t) = true) as -> by by apply matches_owned_in.
      done.
    + intros i Hi. rewrite Hlk. destruct (tasks db !! i) as [t|] eqn:Ht; [|done].
      simpl. destruct (matches q (i, t)) eqn:Hm; [|done].
      by apply matches_owned_in in Hm as [? _].
Qed.

Lemma bulk_all_or_nothing_witness :
  bulkUpdateStatus 10 alice [0; 5] Completed (seeded 2)
  = (seeded 2, someTasksNotFound) ∧
  ∃ db' n, bulkUpdateStatus 10 alice [0; 1] Completed (seeded 2)
           = (db', Success n) ∧
           n = 2 ∧
           ∀ i, i ∈ [0; 1] →
                ∃ t', tasks db' !! i = Some t' ∧ status t' = Completed ∧
                      completedAt t' = Some 10%Z.
Proof.
  split.
  - apply (bulk_all_or_nothing 10 alice [0; 5] Completed (seeded 2)).
    exists 5. split; [|reflexivity].
    apply list_elem_of_further, list_elem_of_here.
  - destruct (proj2 (bulk_all_or_nothing 10 alice [0; 1] Completed (seeded 2)))
      as (db' & n & Hb & Hin & _ & Hn).
    + discriminate.
    + apply (bool_decide_unpack _). reflexivity.
    + intros i Hi. elem_cases Hi; by vm_compute.
    + exists db', n. split; [exact Hb|]. split.
      * assert ((bulkUpdateStatus 10 alice [0; 1] Completed (seeded 2)).2
                = Success 2) as Hc by (vm_compute; reflexivity).
        rewrite Hb in Hc. by injection Hc.
      * intros i Hi. destruct (Hin i Hi) as (t & t' & _ & Ht' & _ & Hs & Hc).
        by exists t'.
Defined.

(** ** POST /api/tasks *)

Lemma preSave_keeps now b t :
  user (preSave now b t) = user t ∧ status (preSave now b t) = status t ∧
  deadline (preSave now b t) = deadline t ∧
  priority (preSave now b t) = priority t.
Proof. unfold preSave. by repeat case_match. Qed.

(** Once the hook has seen a modified status, the invariant holds. *)
Lemma preSave_lifecycle_ok now t : lifecycle_ok (preSave now true t).
Proof.
  unfold preSave, lifecycle_ok. simpl.
  repeat case_bool_decide; simpl; split; intros; congruence.
Qed.

Lemma create_lifecycle_ok now body uid db db' i t :
  create now body uid db = Some (db', (i, t)) → lifecycle_ok t.
Proof.
  unfold create.
  destruct (newTask now body uid) as [t0|] eqn:En; [|done].
  destruct (schemaValid now t0); [|done]. intros [= _ _ <-].
  case_bool_decide as Hst; [apply preSave_lifecycle_ok|].
  assert (b_status body = None) as Hn by (by destruct (b_status body)).
  unfold newTask in En. repeat case_match; try done.
  injection En as <-. unfold lifecycle_ok. simpl. by rewrite Hn.
Qed.

(** Every task that POST creates satisfies the lifecycle invariant. *)
Lemma createTask_lifecycle_ok now uid body db db' i t :
  createTask now uid body db = (db', Success (i, t)) → lifecycle_ok t.
Proof.
  unfold createTask. destruct (validCreate body); simpl; [|done].
  case_match; [done|].
  destruct (create now (sanitize body) uid db) as [[db'' [j t']]|] eqn:Ec;
    [|done].
  intros [= _ _ <-]. by eapply create_lifecycle_ok.
Qed.



(** A request that passes the validation chain is decided by its deadline
    alone. *)
Lemma createTask_validated now uid body db d :
  validCreate body = true →
  b_deadline body = Some d →
  ((d ≤ now)%Z →
   createTask now uid body db = (db, deadlineNotFuture)) ∧
  ((now < d)%Z →
   ∃ t, createTask now uid body db
        = (mkDB (<[next_id db := t]> (tasks db)) (S (next_id db)),
           Success (next_id db, t)) ∧
        user t = uid ∧ deadline t = d ∧
        (b_status body = None → status t = Pending ∧ completedAt t = None) ∧
        (b_priority body = None → priority t = Medium)).
Proof.
  intros Hv Hd. unfold createTask. rewrite Hv. simpl. rewrite Hd.
  unfold validCreate in Hv. rewrite !andb_true_iff in Hv.
  destruct Hv as [[[Hti Hde] _] Hta].
  split.
  - intros Hle. by rewrite (proj2 (Z.leb_le d now) Hle).
  - intros Hlt. rewrite (proj2 (Z.leb_gt d now) Hlt).
    unfold create, newTask. simpl. rewrite Hd.
    unfold requiredLength in Hti, Hde.
    destruct (b_title body) as [ti|] eqn:Eti; simpl in *.
    2:{ by vm_compute in Hti. }
    destruct (b_description body) as [de|] eqn:Ede; simpl in *.
    2:{ by vm_compute in Hde. }
    unfold schemaValid. simpl.
    rewrite !trim_idemp, Hti, Hde, (proj2 (Z.ltb_lt now d) Hlt).
    rewrite validTags_sanitized by done. simpl.
    eexists. split; [reflexivity|].
    match goal with |- context [preSave ?n ?b ?t] =>
      destruct (preSave_keeps n b t) as (-> & Hs & -> & ->) end.
    simpl. split; [done|]. split; [done|]. split.
    + by intros ->.
    + by intros ->.
Qed.



(** The schema validators never reject what the validation chain and the
    deadline check of the route let through. *)
Lemma createTask_not_Thrown now uid body db :
  (createTask now uid body db).2 ≠ Thrown.
Proof.
  destruct (validCreate body) eqn:Hv.
  2:{ unfold createTask. by rewrite Hv. }
  destruct (b_deadline body) as [d|] eqn:Ed.
  2:{ unfold validCreate in Hv. rewrite Ed in Hv.
      by rewrite andb_false_r in Hv. }
  destruct (createTask_validated now uid body db d Hv Ed) as [Hpast Hfut].
  destruct (Z.le_gt_cases d now) as [Hle|Hlt].
  - by rewrite (Hpast Hle).
  - by destruct (Hfut Hlt) as (t & -> & _).
Qed.

Lemma isLength_from_0 max s : isLength 1 max s = true → isLength 0 max s = true.
Proof. unfold isLength. rewrite !andb_true_iff. by intros [_ ?]. Qed.

Lemma optionalLength_sanitized max o :
  optionalLength 1 max o = true → optionalLength 0 max (trim <$> o) = true.
Proof.
  destruct o as [s|]; simpl; [|done].
  rewrite trim_idemp. apply isLength_from_0.
Qed.

Lemma updateValid_sanitized now body :
  validUpdate body = true →
  match b_deadline body with Some d => (d <=? now)%Z | None => false end = false →
  updateValid now (sanitize body) = true.
Proof.
  unfold validUpdate, updateValid. rewrite !andb_true_iff.
  intros [[Hti Hde] Hta] Hd. simpl.
  rewrite (optionalLength_sanitized _ _ Hti), (optionalLength_sanitized _ _ Hde).
  rewrite validTags_sanitize, Hta.
  destruct (b_deadline body) as [d|]; [|done].
  apply Z.leb_gt in Hd. by rewrite (proj2 (Z.ltb_lt now d) Hd).
Qed.

(** ** PUT /api/tasks/:id *)

(** What a successful PUT does: the route looks the task of the caller up,
    writes the keys of the body and [updatedAt], and nothing else. *)
Lemma updateTask_Success now uid i body db db' j t' :
  updateTask now uid i body db = (db', Success (j, t')) →
  ∃ t, findOne i (byUser uid) (tasks db) = Some t ∧ j = i ∧
       t' = applyUpdate now (sanitize body) t ∧
       db' = mkDB (<[i := t']> (tasks db)) (next_id db).
Proof.
  unfold updateTask. destruct (validUpdate body); simpl; [|done].
  destruct (findOne i (byUser uid) (tasks db)) as [t|] eqn:Ef; [|done].
  case_match; [done|].
  unfold findByIdAndUpdate. destruct (updateValid now (sanitize body)); [|done].
  pose proof Ef as [Ht _]%findOne_Some. rewrite Ht.
  intros [= <- <- <-]. by exists t.
Qed.

Lemma updateTask_not_Thrown now uid i body db :
  (updateTask now uid i body db).2 ≠ Thrown.
Proof.
  unfold updateTask. destruct (validUpdate body) eqn:Hv; simpl; [|done].
  destruct (findOne i (byUser uid) (tasks db)) as [t|] eqn:Ef; [|done].
  destruct (match b_deadline body with
            | Some d => (d <=? now)%Z | None => false end) eqn:Hd; [done|].
  unfold findByIdAndUpdate. rewrite (updateValid_sanitized now body Hv Hd).
  apply findOne_Some in Ef as [-> _]. done.
Qed.

(** C2: what the code does on a successful PUT, against the claim that
    completedAt is stamped or cleared together with the status: for a body
    made of the keys the route validates, the updated task has the status of
    the body, when one is supplied, and the completedAt it had before,
    whatever the old and the new status are. *)
Theorem updateTask_keeps_completedAt now uid i body db db' j t' :
  updateTask now uid i body db = (db', Success (j, t')) →
  ∃ t, findOne i (byUser uid) (tasks db) = Some t ∧
       j = i ∧ tasks db' !! i = Some t' ∧
       status t' = default (status t) (b_status body) ∧
       completedAt t' = completedAt t.
Proof.
  intros (t & Hf & -> & -> & ->)%updateTask_Success.
  exists t. simpl. by rewrite lookup_insert_eq.
Qed.

Lemma updateTask_keeps_completedAt_witness :
  ∃ db' t',
    updateTask 50 alice 0 markCompleted (seeded 1) = (db', Success (0, t')) ∧
    status t' = Completed ∧ completedAt t' = None ∧ completedAt t' ≠ Some 50%Z.
Proof.
  eexists _, _. split; [vm_compute; reflexivity|].
  destruct (updateTask_keeps_completedAt 50 alice 0 markCompleted (seeded 1) _ _ _
              ltac:(vm_compute; reflexivity)) as (t & Ht & _ & _ & Hs & Hc).
  vm_compute in Ht. injection Ht as <-.
  split; [exact Hs|]. split; [exact Hc|]. discriminate.
Defined.

(** A task created Completed at instant 0 and set back to Pending by a PUT
    keeps the completion stamp of instant 0. *)
Lemma update_away_from_Completed :
  ∃ t, getTask alice 0 reopenedByUpdate = Success (0, t) ∧
       status t = Pending ∧ completedAt t = Some 0%Z.
Proof. eexists. split; [vm_compute; reflexivity|]. by split. Qed.

(** A task set to Completed and then to Pending by two PUTs has a null
    completedAt, as it had one all along. *)
Lemma update_Completed_then_Pending :
  ∃ t, getTask alice 0 completedThenPending = Success (0, t) ∧
       status t = Pending ∧ completedAt t = None.
Proof. eexists. split; [vm_compute; reflexivity|]. by split. Qed.

(** ** DELETE /api/tasks/:id and the identifiers of deleted tasks *)

Lemma createTask_step now uid body db :
  store_step db (createTask now uid body db).1.
Proof.
  unfold createTask. destruct (validCreate body); simpl; [|by apply step_same].
  case_match; [by apply step_same|].
  unfold create. destruct (newTask now (sanitize body) uid); [|by apply step_same].
  destruct (schemaValid now t); [|by apply step_same].
  simpl. by eapply step_insert.
Qed.

Lemma updateTask_step now uid i body db :
  store_step db (updateTask now uid i body db).1.
Proof.
  unfold updateTask. destruct (validUpdate body); simpl; [|by apply step_same].
  destruct (findOne i (byUser uid) (tasks db)) as [t|] eqn:Ef;
    [|by apply step_same].
  apply findOne_Some in Ef as [Ht _].
  case_match; [by apply step_same|].
  unfold findByIdAndUpdate.
  destruct (updateValid now (sanitize body)); [|by apply step_same].
  rewrite Ht. simpl. by eapply step_replace.
Qed.

Lemma deleteTask_step uid i db : store_step db (deleteTask uid i db).1.
Proof.
  unfold deleteTask.
  destruct (findOne i (byUser uid) (tasks db)); [|by apply step_same].
  simpl. by eapply step_delete.
Qed.

Lemma bulkUpdateStatus_step now uid ids st db :
  store_step db (bulkUpdateStatus now uid ids st db).1.
Proof.
  unfold bulkUpdateStatus. case_bool_decide; [by apply step_same|].
  case_match; [by apply step_same|]. simpl.
  by eapply (step_rewrite _ _ (λ i t, if matches _ (i, t) then _ else t)).
Qed.

Lemma serve_step now r db : store_step db (serve now r db).
Proof.
  destruct r; simpl;
    auto using createTask_step, updateTask_step, deleteTask_step,
               bulkUpdateStatus_step, step_same.
Qed.

Lemma store_step_wf db db' : store_step db db' → db_wf db → db_wf db'.
Proof.
  intros Hstep Hwf.
  destruct Hstep as [-> | t -> | j t t' Hj -> | j -> | f ->];
    [done | intros k; simpl ..].
  - destruct (decide (k = next_id db)) as [->|Hne]; [lia|].
    rewrite lookup_insert_ne by done. intros Hk%Hwf. lia.
  - destruct (decide (k = j)) as [->|Hne]; [intros _; by apply Hwf|].
    rewrite lookup_insert_ne by done. apply Hwf.
  - destruct (decide (k = j)) as [->|Hne].
    + rewrite lookup_delete_eq. by intros [? ?].
    + rewrite lookup_delete_ne by done. apply Hwf.
  - rewrite map_lookup_imap. intros Hk. apply Hwf.
    destruct (tasks db !! k); [done|]. by destruct Hk.
Qed.


Lemma reachable_wf db : reachable db → db_wf db.
Proof.
  induction 1 as [|now r db _ IH].
  - intros i. unfold emptyDB. simpl. rewrite lookup_empty. by intros [? ?].
  - eapply store_step_wf; [apply serve_step|done].
Qed.


Lemma reachable_run trace db : reachable db → reachable (run trace db).
Proof.
  revert db. induction trace as [|[now r] trace IH]; intros db Hd; [done|].
  simpl. apply IH. by constructor.
Qed.



(** ** The lifecycle invariant over the reachable stores *)






(** C1: a store reached through the public operations in which a task read
    back by its owner is Completed with a null completedAt: a task is
    created, then set to Completed by PUT. *)
Theorem lifecycle_invariant_broken_by_update :
  ∃ db i t,
    reachable db ∧ getTask alice i db = Success (i, t) ∧
    status t = Completed ∧ completedAt t = None ∧ ¬ lifecycle_ok t.
Proof.
  exists completedByUpdate, 0. eexists.
  split; [apply reachable_run, reachable_empty|].
  split; [vm_compute; reflexivity|].
  split; [reflexivity|]. split; [reflexivity|].
  unfold lifecycle_ok. simpl. intros [_ H]. by apply H.
Qed.

(** ** GET /api/tasks/stats/overview: the completion rate *)

Lemma getStats_completionRate now uid db :
  ∃ s, getStats now uid db = Success s ∧
       st_completionRate s =
       completionRate (completedLast30Days now uid (tasks db))
                      (tasksLast30Days now uid (tasks db)).
Proof. eexists. split; reflexivity. Qed.

(** Nothing created in the last 30 days: the rate is 0. *)
Lemma completionRate_zero_denominator completed :
  completionRate completed 0 = Some 0%Z.
Proof. done. Qed.

Lemma getStats_nothing_created now uid db :
  tasksLast30Days now uid (tasks db) = 0 →
  ∃ s, getStats now uid db = Success s ∧ st_completionRate s = Some 0%Z.
Proof.
  intros H0. eexists. split; [reflexivity|]. simpl. by rewrite H0.
Qed.

(** Four completed out of ten created: the rate is 40. *)
Lemma getStats_4_of_10 now uid db :
  tasksLast30Days now uid (tasks db) = 10 →
  completedLast30Days now uid (tasks db) = 4 →
  ∃ s, getStats now uid db = Success s ∧ st_completionRate s = Some 40%Z.
Proof.
  intros H10 H4. eexists. split; [reflexivity|]. simpl. by rewrite H10, H4.
Qed.

(** [Math.round] on a few doubles: halves go up, also below zero; the
    second one is the double just below 57.5. *)
Lemma Math_round_examples :
  Math_round 57.5%float = Some 58%Z ∧
  Math_round 0x1.cbfffffffffffp+5%float = Some 57%Z ∧
  Math_round 12.5%float = Some 13%Z ∧
  Math_round (-2.5)%float = Some (-2)%Z ∧
  Math_round 40%float = Some 40%Z.
Proof. repeat split; reflexivity. Qed.

(** Multiplying before dividing, as the formula is written, is exact on
    doubles for 23 of 40: 2300 / 40 is 57.5 and rounds to 58.  Dividing
    first gives the double below 57.5, which JavaScript prints as
    57.49999999999999. *)
Lemma multiply_first_23_of_40 :
  Math_round (PrimFloat.div (PrimFloat.mul (toNumber 100) (toNumber 23))
                            (toNumber 40)) = Some 58%Z ∧
  PrimFloat.mul (PrimFloat.div (toNumber 23) (toNumber 40)) (toNumber 100)
  = 0x1.cbfffffffffffp+5%float.
Proof. split; reflexivity. Qed.

(** A half is rounded up when the product is exact: 1 of 8 is 12.5. *)
Lemma completionRate_1_of_8 :
  completionRate 1 8 = Some 13%Z ∧ spec_completionRate 1 8 = 13%Z.
Proof. split; reflexivity. Qed.

(** For fewer than forty tasks created, code and formula agree. *)
Lemma completionRate_agrees_below_40 completed created :
  created < 40 → completed ≤ created →
  completionRate completed created
  = Some (spec_completionRate completed created).
Proof.
  intros Ht Hc.
  assert (forallb agree_upto (seq 0 40) = true) as Hall
    by (vm_compute; reflexivity).
  rewrite forallb_forall in Hall.
  assert (agree_upto created = true) as Hcr.
  { apply Hall, in_seq. lia. }
  unfold agree_upto in Hcr. rewrite forallb_forall in Hcr.
  eapply bool_decide_eq_true_1, Hcr, in_seq. lia.
Qed.

(** C6: the rate the code returns for 23 tasks completed out of 40 created
    in the last 30 days, on a store reached through the API: the quotient
    23/40 is rounded to a double before it is multiplied by 100, the product
    is the double just below 57.5, and the rate is 57, where
    round(100 * 23 / 40) = round(57.5) is 58. *)
Theorem completionRate_23_of_40 :
  reachable busyMonth ∧
  tasksLast30Days 20 alice (tasks busyMonth) = 40 ∧
  completedLast30Days 20 alice (tasks busyMonth) = 23 ∧
  (∃ s, getStats 20 alice busyMonth = Success s ∧
        st_completionRate s = Some 57%Z) ∧
  completionRate 23 40 = Some 57%Z ∧
  spec_completionRate 23 40 = 58%Z.
Proof.
  split; [apply reachable_run, reachable_empty|].
  split; [vm_compute; reflexivity|].
  split; [vm_compute; reflexivity|].
  split; [|split; reflexivity].
  eexists. split; [vm_compute; reflexivity|]. reflexivity.
Qed.

(** ** Ownership *)

Lemma findOne_foreign i uid m :
  findOne i (byUser uid) m = None ↔ ∀ t, m !! i = Some t → user t ≠ uid.
Proof.
  split.
  - intros Hn t Ht Hu.
    assert (findOne i (byUser uid) m = Some t) as Hs by by apply findOne_Some.
    congruence.
  - intros Hall. destruct (findOne i (byUser uid) m) as [t|] eqn:E; [|done].
    apply findOne_Some in E as [Ht Hu]. by destruct (Hall t Ht).
Qed.

(** What a mutating request answers and leaves behind when the identifier
    names no task of the caller. *)
Theorem foreign_task_looks_absent now uid i body db :
  (∀ t, tasks db !! i = Some t → user t ≠ uid) →
  getTask uid i db = taskNotFound ∧
  deleteTask uid i db = (db, taskNotFound) ∧
  (validUpdate body = true →
   updateTask now uid i body db = (db, taskNotFound)).
Proof.
  intros Hf%findOne_foreign.
  unfold getTask, deleteTask, updateTask. rewrite Hf.
  split; [done|]. split; [done|]. by intros ->.
Qed.

Lemma foreign_task_looks_absent_witness :
  getTask bob 0 (seeded 1) = taskNotFound ∧
  getTask bob 5 (seeded 1) = taskNotFound ∧
  deleteTask bob 0 (seeded 1) = (seeded 1, taskNotFound) ∧
  updateTask 50 bob 0 markCompleted (seeded 1) = (seeded 1, taskNotFound).
Proof.
  assert (∀ t, tasks (seeded 1) !! 0 = Some t → user t ≠ bob) as H0.
  { intros t Ht. vm_compute in Ht. injection Ht as <-. by vm_compute. }
  assert (∀ t, tasks (seeded 1) !! 5 = Some t → user t ≠ bob) as H5.
  { intros t Ht. by vm_compute in Ht. }
  destruct (foreign_task_looks_absent 50 bob 0 markCompleted (seeded 1) H0)
    as (Hg & Hd & Hu).
  destruct (foreign_task_looks_absent 50 bob 5 markCompleted (seeded 1) H5)
    as (Hg5 & _).
  split; [exact Hg|]. split; [exact Hg5|]. split; [exact Hd|].
  by apply Hu.
Defined.

(** No request served for one user changes or removes a task of another. *)
Theorem other_users_tasks_untouched now r db i t :
  reachable db →
  tasks db !! i = Some t →
  caller r ≠ user t →
  tasks (serve now r db) !! i = Some t.
Proof.
  intros Hwf%reachable_wf Ht Hne.
  assert (i < next_id db) as Hlt by (apply Hwf; by exists t).
  destruct r as [uid rq|uid j|uid body|uid j body|uid j|uid|uid ids st];
    simpl in *; try done.
  - (* POST *)
    unfold createTask. destruct (validCreate body); simpl; [|done].
    case_match; [done|]. unfold create.
    destruct (newTask now (sanitize body) uid) as [t0|]; [|done].
    destruct (schemaValid now t0); [|done]. simpl.
    by rewrite lookup_insert_ne by lia.
  - (* PUT *)
    destruct (updateTask now uid j body db) as [db' [[k t']| | |]] eqn:Eu;
      simpl.
    + apply updateTask_Success in Eu as (t0 & Hf & -> & _ & ->).
      apply findOne_Some in Hf as [Ht0 Hu]. simpl.
      rewrite lookup_insert_ne; [done|]. intros ->. congruence.
    + unfold updateTask in Eu. repeat case_match; by simplify_eq.
    + unfold updateTask in Eu. repeat case_match; by simplify_eq.
    + by destruct (updateTask_not_Thrown now uid j body db); rewrite Eu.
  - (* DELETE *)
    unfold deleteTask.
    destruct (findOne j (byUser uid) (tasks db)) as [t0|] eqn:Hf; [|done].
    apply findOne_Some in Hf as [Ht0 Hu]. simpl. unfold findByIdAndDelete.
    rewrite lookup_delete_ne; [done|]. intros ->. congruence.
  - (* PATCH *)
    unfold bulkUpdateStatus. case_bool_decide; [done|].
    case_match; [done|]. unfold updateMany. simpl.
    rewrite map_lookup_imap, Ht. simpl.
    destruct (matches (with_id (IdIn ids) (byUser uid)) (i, t)) eqn:Hm; [|done].
    apply matches_owned_in in Hm as [_ Hu]. congruence.
Qed.

Lemma other_users_tasks_untouched_witness :
  ∃ t, tasks (seeded 1) !! 0 = Some t ∧
       tasks (serve 50 (DeleteTask bob 0) (seeded 1)) !! 0 = Some t ∧
       tasks (serve 50 (BulkUpdateStatus bob [0] Completed) (seeded 1)) !! 0
       = Some t.
Proof.
  eexists. split; [vm_compute; reflexivity|].
  split.
  - apply (other_users_tasks_untouched 50 (DeleteTask bob 0) (seeded 1) 0).
    + apply reachable_run, reachable_empty.
    + vm_compute; reflexivity.
    + by vm_compute.
  - apply (other_users_tasks_untouched 50 (BulkUpdateStatus bob [0] Completed)
             (seeded 1) 0).
    + apply reachable_run, reachable_empty.
    + vm_compute; reflexivity.
    + by vm_compute.
Defined.

(** ** Requests that fail *)

(** A mutating request either is answered with success or leaves the store
    as it was. *)
Theorem failed_request_changes_nothing now uid i body ids st db :
  ((createTask now uid body db).1 = db ∨
   ∃ a, (createTask now uid body db).2 = Success a) ∧
  ((updateTask now uid i body db).1 = db ∨
   ∃ a, (updateTask now uid i body db).2 = Success a) ∧
  ((deleteTask uid i db).1 = db ∨
   ∃ a, (deleteTask uid i db).2 = Success a) ∧
  ((bulkUpdateStatus now uid ids st db).1 = db ∨
   ∃ a, (bulkUpdateStatus now uid ids st db).2 = Success a).
Proof.
  split; [|split; [|split]].
  - unfold createTask. destruct (validCreate body); simpl; [|by left].
    case_match; [by left|].
    destruct (create now (sanitize body) uid db) as [[db' a]|];
      [right; by exists a | by left].
  - unfold updateTask. destruct (validUpdate body); simpl; [|by left].
    destruct (findOne i (byUser uid) (tasks db)); [|by left].
    case_match; [by left|].
    destruct (findByIdAndUpdate now i (sanitize body) (tasks db))
      as [[m [t'|]]|] eqn:Ef; [right; by eexists | | by left].
    left. unfold findByIdAndUpdate in Ef.
    repeat case_match; simplify_eq; by destruct db.
  - unfold deleteTask. destruct (findOne i (byUser uid) (tasks db));
      [right; by eexists | by left].
  - unfold bulkUpdateStatus. case_bool_decide; [by left|].
    case_match; [by left|]. right. unfold updateMany. by eexists.
Qed.

(** ** Round trips *)

Lemma createTask_Success now uid body db db' i t :
  createTask now uid body db = (db', Success (i, t)) →
  ∃ t0, newTask now (sanitize body) uid = Some t0 ∧
        schemaValid now t0 = true ∧
        t = preSave now (bool_decide (b_status body ≠ None)) t0 ∧
        i = next_id db ∧
        db' = mkDB (<[next_id db := t]> (tasks db)) (S (next_id db)).
Proof.
  unfold createTask. destruct (validCreate body); simpl; [|done].
  case_match; [done|]. unfold create.
  destruct (newTask now (sanitize body) uid) as [t0|]; [|done].
  destruct (schemaValid now t0) eqn:Hs; [|done].
  intros [= <- <- <-]. by exists t0.
Qed.







(** A successful DELETE removes the one document named and nothing else. *)
Theorem delete_removes_one uid i db db' :
  deleteTask uid i db = (db', Success ()) →
  (∃ t, tasks db !! i = Some t ∧ user t = uid) ∧
  tasks db' !! i = None ∧
  (∀ j, j ≠ i → tasks db' !! j = tasks db !! j) ∧
  S (size (tasks db')) = size (tasks db) ∧
  next_id db' = next_id db.
Proof.
  unfold deleteTask.
  destruct (findOne i (byUser uid) (tasks db)) as [t|] eqn:Hf; [|done].
  apply findOne_Some in Hf as [Ht Hu]. intros [= <-]. simpl.
  unfold findByIdAndDelete.
  split; [by exists t|]. split; [apply lookup_delete_eq|].
  split; [intros j Hj; by rewrite lookup_delete_ne|].
  split; [|done].
  rewrite map_size_delete, Ht.
  assert (size (tasks db) ≠ 0); [|lia].
  intros Hz%map_size_empty_inv. by rewrite Hz, lookup_empty in Ht.
Qed.

Lemma delete_removes_one_witness :
  ∃ db', deleteTask alice 1 (seeded 3) = (db', Success ()) ∧
         size (tasks db') = 2 ∧ tasks db' !! 1 = None ∧
         tasks db' !! 2 = tasks (seeded 3) !! 2.
Proof.
  eexists. split; [vm_compute; reflexivity|].
  destruct (delete_removes_one alice 1 (seeded 3) _
              ltac:(vm_compute; reflexivity)) as (_ & Hn & Hk & Hs & _).
  split; [|split; [exact Hn|by apply Hk]].
  assert (size (tasks (seeded 3)) = 3) as H3 by (vm_compute; reflexivity).
  rewrite H3 in Hs. lia.
Defined.

(** ** Invariants of the reachable stores *)

Lemma updateTask_valid_body now uid i body db db' a :
  updateTask now uid i body db = (db', Success a) → validUpdate body = true.
Proof. unfold updateTask. by destruct (validUpdate body). Qed.

Lemma preSave_keeps_strings now b t :
  title (preSave now b t) = title t ∧
  description (preSave now b t) = description t ∧
  tags (preSave now b t) = tags t ∧
  createdAt (preSave now b t) = createdAt t.
Proof. unfold preSave. by repeat case_match. Qed.

Lemma within_bounds_applyUpdate now body t :
  validUpdate body = true → within_bounds t = true →
  within_bounds (applyUpdate now (sanitize body) t) = true.
Proof.
  unfold validUpdate, within_bounds. rewrite !andb_true_iff.
  intros [[Hti Hde] Hta] [[Bti Bde] Bta]. simpl.
  split; [split|].
  - destruct (b_title body) as [s|]; simpl in *; [|done].
    by rewrite trim_idemp.
  - destruct (b_description body) as [s|]; simpl in *; [|done].
    by rewrite trim_idemp.
  - destruct (b_tags body) as [l|]; simpl in *; [|done].
    clear -Hta. induction l as [|x l IH]; simpl in *; [done|].
    apply andb_true_iff in Hta as [Hx Hl].
    rewrite trim_idemp, Hx. simpl. by apply IH.
Qed.

Lemma serve_within_bounds now r db :
  (∀ i t, tasks db !! i = Some t → within_bounds t = true) →
  ∀ i t, tasks (serve now r db) !! i = Some t → within_bounds t = true.
Proof.
  intros Hok i t.
  destruct r as [uid rq|uid j|uid body|uid j body|uid j|uid|uid ids st];
    simpl; try apply Hok.
  - (* POST *)
    destruct (createTask now uid body db) as [db' [[k t']| | |]] eqn:Ec;
      simpl.
    + apply createTask_Success in Ec as (t0 & _ & Hs & -> & -> & ->). simpl.
      destruct (decide (i = next_id db)) as [->|Hne].
      * rewrite lookup_insert_eq. intros [= <-].
        destruct (preSave_keeps_strings now
                    (bool_decide (b_status body ≠ None)) t0)
          as (Hti & Hde & Hta & _).
        unfold within_bounds. rewrite Hti, Hde, Hta.
        unfold schemaValid in Hs. rewrite !andb_true_iff in Hs.
        destruct Hs as [[[-> ->] _] ->]. done.
      * rewrite lookup_insert_ne by done. apply Hok.
    + unfold createTask in Ec. repeat case_match; simplify_eq; apply Hok.
    + unfold createTask in Ec. repeat case_match; simplify_eq; apply Hok.
    + by destruct (createTask_not_Thrown now uid body db); rewrite Ec.
  - (* PUT *)
    destruct (updateTask now uid j body db) as [db' [[k t']| | |]] eqn:Eu;
      simpl.
    + pose proof (updateTask_valid_body _ _ _ _ _ _ _ Eu) as Hv.
      apply updateTask_Success in Eu as (t0 & Hf & -> & -> & ->).
      apply findOne_Some in Hf as [Ht0 _]. simpl.
      destruct (decide (i = j)) as [->|Hne].
      * rewrite lookup_insert_eq. intros [= <-].
        apply within_bounds_applyUpdate; [done|]. by apply (Hok j).
      * rewrite lookup_insert_ne by done. apply Hok.
    + unfold updateTask in Eu. repeat case_match; simplify_eq; apply Hok.
    + unfold updateTask in Eu. repeat case_match; simplify_eq; apply Hok.
    + by destruct (updateTask_not_Thrown now uid j body db); rewrite Eu.
  - (* DELETE *)
    unfold deleteTask.
    destruct (findOne j (byUser uid) (tasks db)); [|apply Hok].
    simpl. unfold findByIdAndDelete.
    destruct (decide (i = j)) as [->|Hne].
    + by rewrite lookup_delete_eq.
    + rewrite lookup_delete_ne by done. apply Hok.
  - (* PATCH *)
    unfold bulkUpdateStatus. case_bool_decide; [apply Hok|].
    case_match; [apply Hok|]. unfold updateMany. simpl.
    rewrite map_lookup_imap.
    destruct (tasks db !! i) as [t0|] eqn:Ht0; [|done]. simpl.
    case_match; intros [= <-]; [|by apply (Hok i)].
    by apply (Hok i t0).
Qed.

(** The length bounds of the schema hold for every stored task, whatever
    requests were served: 1..200 characters of title, 1..1000 of
    description, at most 50 per tag. *)
Theorem stored_tasks_within_bounds db i t :
  reachable db → tasks db !! i = Some t →
  (1 ≤ String.length (title t) ≤ 200) ∧
  (1 ≤ String.length (description t) ≤ 1000) ∧
  Forall (λ tag, String.length tag ≤ 50) (tags t).
Proof.
  intros Hr Ht.
  assert (within_bounds t = true) as Hb.
  { revert i t Ht. induction Hr as [|now r db _ IH]; intros i t.
    - unfold emptyDB. simpl. by rewrite lookup_empty.
    - by apply serve_within_bounds. }
  unfold within_bounds, isLength in Hb. rewrite !andb_true_iff in Hb.
  destruct Hb as [[[H1 H2] [H3 H4]] H5].
  apply Nat.leb_le in H1, H2, H3, H4.
  split; [lia|]. split; [lia|].
  apply Forall_forall. intros tag Hin%list_elem_of_In.
  rewrite forallb_forall in H5. specialize (H5 tag Hin).
  apply andb_true_iff in H5 as [_ H5]. by apply Nat.leb_le in H5.
Qed.

Lemma stored_tasks_within_bounds_witness :
  ∃ t, tasks completedByUpdate !! 0 = Some t ∧
       1 ≤ String.length (title t) ≤ 200.
Proof.
  eexists. split; [vm_compute; reflexivity|].
  apply (stored_tasks_within_bounds completedByUpdate 0).
  - apply reachable_run, reachable_empty.
  - vm_compute; reflexivity.
Defined.





(** A bulk update neither adds nor removes a document, reports at most as
    many modified documents as identifiers were sent, and writes no key
    other than status, completedAt and updatedAt. *)
Theorem bulk_update_keeps_documents now uid ids st db db' n :
  bulkUpdateStatus now uid ids st db = (db', Success n) →
  n ≤ length ids ∧
  size (tasks db') = size (tasks db) ∧
  next_id db' = next_id db ∧
  ∀ i t', tasks db' !! i = Some t' →
    ∃ t, tasks db !! i = Some t ∧
         user t' = user t ∧ title t' = title t ∧
         description t' = description t ∧ deadline t' = deadline t ∧
         priority t' = priority t ∧ tags t' = tags t ∧
         createdAt t' = createdAt t.
Proof.
  unfold bulkUpdateStatus. case_bool_decide; [done|].
  destruct (size (find (with_id (IdIn ids) (byUser uid)) (tasks db))
            =? length ids) eqn:Hsz; simpl; [|done].
  apply Nat.eqb_eq in Hsz. unfold updateMany. intros [= <- <-]. simpl.
  split.
  { rewrite <- Hsz. unfold find. apply map_subseteq_size.
    apply map_filter_subseteq_ext. intros i t _ [Hm _]. done. }
  split.
  { match goal with |- size ?m' = size ?m =>
      assert (dom m' =@{gset ObjectId} dom m) as Hdom end.
    { apply set_eq. intros i. rewrite !elem_of_dom, map_lookup_imap.
      destruct (tasks db !! i); simpl; split; intros [? ?]; by eexists. }
    apply (f_equal size) in Hdom. by rewrite !size_dom in Hdom. }
  split; [done|].
  intros i t'. rewrite map_lookup_imap.
  destruct (tasks db !! i) as [t|]; [|done]. simpl.
  case_match; intros [= <-]; by exists t.
Qed.

Lemma bulk_update_keeps_documents_witness :
  ∃ db' n, bulkUpdateStatus 10 alice [0; 2] Completed (seeded 3)
           = (db', Success n) ∧ n ≤ 2 ∧ size (tasks db') = 3.
Proof.
  eexists _, _. split; [vm_compute; reflexivity|].
  destruct (bulk_update_keeps_documents 10 alice [0; 2] Completed (seeded 3)
              _ _ ltac:(vm_compute; reflexivity)) as (Hn & Hs & _).
  split; [exact Hn|]. rewrite Hs. reflexivity.
Defined.

(** ** GET /api/tasks: what a listing contains *)

Lemma deadline_then_recent_total : Total deadline_then_recent.
Proof. intros a b. unfold deadline_then_recent. lia. Qed.

Lemma deadline_then_recent_trans : Transitive deadline_then_recent.
Proof. intros a b c. unfold deadline_then_recent. lia. Qed.

(** The result of the sort is sorted. *)
Lemma sortByDeadline_sorted l :
  StronglySorted deadline_then_recent (sortByDeadline l).
Proof.
  apply @StronglySorted_merge_sort;
    [apply deadline_then_recent_trans | apply deadline_then_recent_total].
Qed.

Lemma StronglySorted_take_drop {A} (R : relation A) (l : list A) s n :
  StronglySorted R l → StronglySorted R (take n (drop s l)).
Proof.
  intros Hl. rewrite <- (take_drop s l) in Hl.
  apply StronglySorted_app_1_r in Hl.
  rewrite <- (take_drop n (drop s l)) in Hl.
  by apply StronglySorted_app_1_l in Hl.
Qed.

Lemma getUserTasks_ids_distinct now uid filters m :
  NoDup ((getUserTasks now uid filters m).*1).
Proof.
  unfold getUserTasks, sortByDeadline.
  rewrite merge_sort_Permutation. apply NoDup_fst_map_to_list.
Qed.

Lemma buildQuery_fields now uid filters :
  q_id (buildQuery now uid filters) = None ∧
  q_user (buildQuery now uid filters) = Some uid ∧
  q_priority (buildQuery now uid filters) = f_priority filters ∧
  q_status (buildQuery now uid filters)
  = (if f_overdue filters then Some (StatusNe Completed)
     else StatusEq <$> f_status filters) ∧
  q_deadline (buildQuery now uid filters)
  = (if f_overdue filters then Some (DateLt now) else None) ∧
  q_createdAt (buildQuery now uid filters) = None ∧
  q_completedAt (buildQuery now uid filters) = None.
Proof.
  unfold buildQuery.
  by destruct (f_status filters), (f_priority filters), (f_overdue filters).
Qed.

Lemma matches_buildQuery_iff now uid filters kv :
  matches (buildQuery now uid filters) kv = true ↔
  user kv.2 = uid ∧
  (∀ p, f_priority filters = Some p → priority kv.2 = p) ∧
  (if f_overdue filters
   then status kv.2 ≠ Completed ∧ (deadline kv.2 < now)%Z
   else ∀ s, f_status filters = Some s → status kv.2 = s).
Proof.
  destruct (buildQuery_fields now uid filters)
    as (Hi & Hu & Hp & Hs & Hd & Hc & Hco).
  unfold matches. rewrite Hi, Hu, Hp, Hs, Hd, Hc, Hco. unfold holds.
  rewrite !andb_true_r. simpl. rewrite !andb_true_iff, bool_decide_eq_true.
  destruct (f_priority filters) as [p|], (f_overdue filters),
    (f_status filters) as [s|]; simpl;
    rewrite ?bool_decide_eq_true, ?negb_true_iff, ?bool_decide_eq_false,
            ?Z.ltb_lt;
    split; intros H; repeat split; try tauto;
    try (by intros ? [= <-]; tauto); try (intros ? [=]);
    try (destruct H as (_ & H & _); by apply H);
    try (destruct H as (_ & _ & H); by apply H).
Qed.

Lemma matches_buildQuery now uid rq kv :
  matches (buildQuery now uid (buildFilters rq)) kv = true →
  user kv.2 = uid ∧
  (∀ p, lq_priority rq = Some p → priority kv.2 = p) ∧
  (∀ s, lq_status rq = Some s → lq_overdue rq ≠ Some "true" →
        status kv.2 = s).
Proof.
  intros (Hu & Hp & Hs)%matches_buildQuery_iff.
  split; [done|]. split; [exact Hp|].
  intros s Hst Hov. simpl in Hs.
  rewrite bool_decide_eq_false_2 in Hs by done. by apply Hs.
Qed.

(** Every listed task is stored, belongs to the caller and has the
    requested priority; it has the requested status unless overdue=true was
    sent; the page is sorted by deadline, the more recent first among equal
    deadlines; and no task is listed twice. *)
Theorem listing_is_sound_and_sorted now uid rq db r :
  listTasks now uid rq db = Success r →
  (∀ kv, kv ∈ listed r →
     tasks db !! kv.1 = Some kv.2 ∧ user kv.2 = uid ∧
     (∀ p, lq_priority rq = Some p → priority kv.2 = p) ∧
     (∀ s, lq_status rq = Some s → lq_overdue rq ≠ Some "true" →
           status kv.2 = s)) ∧
  StronglySorted deadline_then_recent (listed r) ∧
  NoDup ((listed r).*1) ∧
  count r ≤ total r.
Proof.
  intros [Hv ->]%listTasks_Success. simpl.
  split; [|split; [|split]].
  - intros kv [Hst Hm]%elem_of_findPage. split; [done|].
    by apply (matches_buildQuery now).
  - unfold findPage. apply StronglySorted_take_drop, sortByDeadline_sorted.
  - unfold findPage. rewrite fmap_take, fmap_drop.
    eapply sublist_NoDup; [|apply sublist_take].
    eapply sublist_NoDup; [|apply sublist_drop].
    apply (getUserTasks_ids_distinct now uid (buildFilters rq)).
  - rewrite length_findPage. lia.
Qed.

Lemma listing_is_sound_and_sorted_witness :
  ∃ r, listTasks 200 alice (mkListQuery (Some Pending) (Some Medium) None None None)
         mixedDB = Success r ∧
       count r = 2 ∧
       (∀ kv, kv ∈ listed r → user kv.2 = alice ∧ status kv.2 = Pending) ∧
       StronglySorted deadline_then_recent (listed r).
Proof.
  eexists. split; [vm_compute; reflexivity|]. split; [reflexivity|].
  destruct (listing_is_sound_and_sorted 200 alice
              (mkListQuery (Some Pending) (Some Medium) None None None)
              mixedDB _ ltac:(vm_compute; reflexivity)) as (Hs & Hsorted & _).
  split; [|exact Hsorted].
  intros kv Hkv. destruct (Hs kv Hkv) as (_ & Hu & _ & Hst).
  split; [exact Hu|]. by apply (Hst Pending).
Defined.

(** ** GET /api/tasks: consecutive pages *)



(** ** GET /api/tasks: the overdue parameter *)

(** [overdue] filters only when it is the string "true": the other values
    that pass validation ("false", "1", "0") give the reply of the request
    without the parameter. *)
Theorem overdue_other_values_ignored now uid rq db s :
  lq_overdue rq = Some s → isBoolean s = true → s ≠ "true" →
  listTasks now uid rq db = listTasks now uid (without_overdue rq) db.
Proof.
  intros Ho Hb Hne. destruct rq as [st pr ov pg lm]. simpl in Ho. subst ov.
  unfold listTasks, without_overdue, validList, buildFilters. simpl.
  rewrite Hb. simpl.
  by rewrite bool_decide_eq_false_2 by congruence.
Qed.

Lemma overdue_other_values_ignored_witness :
  listTasks 200 alice (mkListQuery None None (Some "1") None None) mixedDB
  = listTasks 200 alice (mkListQuery None None None None None) mixedDB ∧
  ∃ r, listTasks 200 alice (mkListQuery None None (Some "1") None None) mixedDB
       = Success r ∧ count r = 4.
Proof.
  split.
  - apply (overdue_other_values_ignored 200 alice
             (mkListQuery None None (Some "1") None None) mixedDB "1");
      [reflexivity | reflexivity | discriminate].
  - eexists. split; [vm_compute; reflexivity|reflexivity].
Defined.

(** ** The virtual [isOverdue] and the overdue filter *)

(** [getUserTasks] with the overdue filter returns exactly the stored tasks
    of the user for which the virtual [isOverdue] is true (and which have
    the requested priority, if one is given); a status filter plays no
    part. *)
Theorem overdue_filter_is_isOverdue now uid filters m i t :
  f_overdue filters = true →
  (i, t) ∈ getUserTasks now uid filters m ↔
  m !! i = Some t ∧ user t = uid ∧ isOverdue now t = true ∧
  (∀ p, f_priority filters = Some p → priority t = p).
Proof.
  intros Ho. unfold getUserTasks.
  rewrite elem_of_sortByDeadline, elem_of_map_to_list, find_lookup.
  rewrite matches_buildQuery_iff, Ho. simpl. unfold isOverdue.
  case_bool_decide as Hc; rewrite ?Z.ltb_lt; split.
  - by intros (_ & _ & _ & Hn & _).
  - by intros (_ & _ & ? & _).
  - intros (Hm & Hu & Hp & _ & Hd). done.
  - intros (Hm & Hu & Hd & Hp). done.
Qed.

Lemma overdue_filter_is_isOverdue_witness :
  ∃ t, tasks mixedDB !! 2 = Some t ∧ isOverdue 200 t = true ∧
       (2, t) ∈ getUserTasks 200 alice (mkFilters (Some Completed) None true)
                  (tasks mixedDB).
Proof.
  eexists. split; [vm_compute; reflexivity|]. split; [reflexivity|].
  apply (overdue_filter_is_isOverdue 200 alice
           (mkFilters (Some Completed) None true) (tasks mixedDB) 2).
  - reflexivity.
  - split; [vm_compute; reflexivity|]. split; [reflexivity|].
    split; [reflexivity|]. intros p Hp. discriminate.
Defined.

(** ** Statistics *)

Section count_lemmas.
Implicit Types (m : gmap ObjectId Task) (q : TaskQuery) (uid : ObjectId).

(** A query that implies another one counts at most as many documents. *)
Lemma countDocuments_mono q1 q2 m :
  (∀ kv, matches q1 kv = true → matches q2 kv = true) →
  countDocuments q1 m ≤ countDocuments q2 m.
Proof.
  intros Himp. unfold countDocuments, find. apply map_subseteq_size.
  apply map_filter_subseteq_ext. intros i t _ H1.
  apply Is_true_true in H1. by apply Is_true_true, Himp.
Qed.

(** Two queries that exclude each other and together make up a third one
    split its count. *)
Lemma countDocuments_split q q1 q2 m :
  (∀ kv, matches q kv = true ↔ matches q1 kv = true ∨ matches q2 kv = true) →
  (∀ kv, matches q1 kv = true → matches q2 kv = true → False) →
  countDocuments q m = countDocuments q1 m + countDocuments q2 m.
Proof.
  intros Hor Hex. unfold countDocuments, find.
  rewrite <- map_size_disj_union.
  - f_equal. rewrite <- map_filter_or. apply map_filter_ext.
    intros i t _. rewrite !Is_true_true. apply Hor.
  - apply map_disjoint_spec.
    intros i x y [Hx H1]%map_lookup_filter_Some [Hy H2]%map_lookup_filter_Some.
    rewrite Hx in Hy. injection Hy as <-.
    apply Is_true_true in H1, H2. by apply (Hex (i, x)).
Qed.

Lemma matches_byUser uid kv :
  matches (byUser uid) kv = true ↔ user kv.2 = uid.
Proof.
  unfold matches, holds. simpl. rewrite !andb_true_r.
  apply bool_decide_eq_true.
Qed.

Lemma matches_user_status uid c kv :
  matches (with_status c (byUser uid)) kv = true ↔
  user kv.2 = uid ∧ statusMatches c (status kv.2) = true.
Proof.
  unfold matches, holds. simpl. rewrite !andb_true_r, andb_true_iff.
  by rewrite bool_decide_eq_true.
Qed.

Lemma statusMatches_Eq s s' : statusMatches (StatusEq s) s' = true ↔ s' = s.
Proof. apply bool_decide_eq_true. Qed.

Lemma statusMatches_Ne s s' : statusMatches (StatusNe s) s' = true ↔ s' ≠ s.
Proof. simpl. by rewrite negb_true_iff, bool_decide_eq_false. Qed.

(** The tasks of a user are the Pending, the In Progress and the Completed
    ones. *)
Lemma countDocuments_by_status uid m :
  countDocuments (byUser uid) m =
  countDocuments (with_status (StatusEq Pending) (byUser uid)) m +
  countDocuments (with_status (StatusEq InProgress) (byUser uid)) m +
  countDocuments (with_status (StatusEq Completed) (byUser uid)) m.
Proof.
  rewrite (countDocuments_split (byUser uid)
             (with_status (StatusNe Completed) (byUser uid))
             (with_status (StatusEq Completed) (byUser uid))).
  - f_equal.
    apply (countDocuments_split _
             (with_status (StatusEq Pending) (byUser uid))
             (with_status (StatusEq InProgress) (byUser uid))).
    + intros kv. rewrite !matches_user_status, statusMatches_Ne,
        !statusMatches_Eq.
      destruct (status kv.2); intuition congruence.
    + intros kv. rewrite !matches_user_status, !statusMatches_Eq.
      intros [_ H1] [_ H2]. congruence.
  - intros kv. rewrite !matches_user_status, matches_byUser,
      statusMatches_Ne, statusMatches_Eq.
    destruct (decide (status kv.2 = Completed)); tauto.
  - intros kv. rewrite !matches_user_status, statusMatches_Ne,
      statusMatches_Eq. tauto.
Qed.

(** The tasks of a user that are not Completed are the Pending and the
    In Progress ones. *)
Lemma countDocuments_not_completed uid m :
  countDocuments (with_status (StatusNe Completed) (byUser uid)) m =
  countDocuments (with_status (StatusEq Pending) (byUser uid)) m +
  countDocuments (with_status (StatusEq InProgress) (byUser uid)) m.
Proof.
  pose proof (countDocuments_by_status uid m) as Hall.
  rewrite (countDocuments_split (byUser uid)
             (with_status (StatusNe Completed) (byUser uid))
             (with_status (StatusEq Completed) (byUser uid))) in Hall.
  - lia.
  - intros kv. rewrite !matches_user_status, matches_byUser,
      statusMatches_Ne, statusMatches_Eq.
    destruct (decide (status kv.2 = Completed)); tauto.
  - intros kv. rewrite !matches_user_status, statusMatches_Ne,
      statusMatches_Eq. tauto.
Qed.
End count_lemmas.

Lemma getUserTaskStats_fields uid m :
  sc_pending (getUserTaskStats uid m)
  = countDocuments (with_status (StatusEq Pending) (byUser uid)) m ∧
  sc_inProgress (getUserTaskStats uid m)
  = countDocuments (with_status (StatusEq InProgress) (byUser uid)) m ∧
  sc_completed (getUserTaskStats uid m)
  = countDocuments (with_status (StatusEq Completed) (byUser uid)) m ∧
  sc_total (getUserTaskStats uid m) = countDocuments (byUser uid) m.
Proof.
  rewrite countDocuments_by_status.
  unfold getUserTaskStats, aggregateByStatus. simpl.
  destruct (countDocuments (with_status (StatusEq Pending) (byUser uid)) m),
    (countDocuments (with_status (StatusEq InProgress) (byUser uid)) m),
    (countDocuments (with_status (StatusEq Completed) (byUser uid)) m);
    simpl; repeat split; lia.
Qed.

(** [getUserTaskStats]: each figure is the number of tasks of the user with
    that status, also when no task has it, and the total is their sum, the
    number of tasks of the user. *)
Theorem getUserTaskStats_counts uid m :
  let s := getUserTaskStats uid m in
  sc_pending s = countDocuments (with_status (StatusEq Pending) (byUser uid)) m ∧
  sc_inProgress s
  = countDocuments (with_status (StatusEq InProgress) (byUser uid)) m ∧
  sc_completed s
  = countDocuments (with_status (StatusEq Completed) (byUser uid)) m ∧
  sc_total s = sc_pending s + sc_inProgress s + sc_completed s ∧
  sc_total s = countDocuments (byUser uid) m.
Proof.
  intros s. subst s.
  destruct (getUserTaskStats_fields uid m) as (Hp & Hi & Hc & Ht).
  repeat (split; [done|]). split; [|done].
  rewrite Hp, Hi, Hc, Ht. apply countDocuments_by_status.
Qed.

(** GET /api/tasks/stats/overview: the overdue tasks and those due within
    a week are different tasks, none of them Completed, so the two figures
    add up to at most the Pending and In Progress ones. *)
Theorem overdue_and_dueThisWeek now uid db :
  ∃ s, getStats now uid db = Success s ∧
       st_overdue s + st_dueThisWeek s
       ≤ sc_pending (st_counts s) + sc_inProgress (st_counts s) ∧
       sc_total (st_counts s) = countDocuments (byUser uid) (tasks db).
Proof.
  eexists. split; [reflexivity|]. simpl.
  destruct (getUserTaskStats_fields uid (tasks db)) as (-> & -> & _ & Ht).
  split; [|exact Ht].
  rewrite <- countDocuments_not_completed.
  set (qo := with_status (StatusNe Completed)
               (with_deadline (DateLt now) (byUser uid))).
  set (qw := with_status (StatusNe Completed)
               (with_deadline (DateBetween now (addDays now 7)) (byUser uid))).
  set (either := with_status (StatusNe Completed) (byUser uid)).
  assert (∀ c kv, matches (with_status (StatusNe Completed)
                             (with_deadline c (byUser uid))) kv = true ↔
                  matches either kv = true ∧
                  dateMatches c (Some (deadline kv.2)) = true) as Hm.
  { intros c kv. unfold matches, holds. simpl.
    rewrite !andb_true_r, !andb_true_iff. tauto. }
  unfold countDocuments, find.
  rewrite <- map_size_disj_union.
  - apply map_subseteq_size. apply map_union_least;
      apply map_filter_subseteq_ext; intros i t _;
      rewrite !Is_true_true; intros H%Hm; tauto.
  - apply map_disjoint_spec.
    intros i x y [Hx H1]%map_lookup_filter_Some [Hy H2]%map_lookup_filter_Some.
    rewrite Hx in Hy. injection Hy as <-.
    apply Is_true_true, Hm in H1 as [_ H1].
    apply Is_true_true, Hm in H2 as [_ H2]. simpl in H1, H2.
    apply Z.ltb_lt in H1. apply andb_true_iff in H2 as [H2 _].
    apply Z.leb_le in H2. lia.
Qed.

(** GET /api/profiles/me/stats reports the figures of the task statistics
    route, and its recent completions (seven days) are at most the
    completions of the last thirty days and at most the Completed tasks. *)
Theorem profileStats_and_getStats now uid db :
  ∃ ps s,
    profileStats now uid db = Success ps ∧
    getStats now uid db = Success s ∧
    ps_counts ps = st_counts s ∧
    ps_overdue ps = st_overdue s ∧
    ps_dueThisWeek ps = st_dueThisWeek s ∧
    ps_recentCompletions ps ≤ completedLast30Days now uid (tasks db) ∧
    ps_recentCompletions ps ≤ sc_completed (ps_counts ps).
Proof.
  eexists _, _. split; [reflexivity|]. split; [reflexivity|]. simpl.
  repeat (split; [done|]).
  destruct (getUserTaskStats_fields uid (tasks db)) as (_ & _ & -> & _).
  split; apply countDocuments_mono; intros kv; unfold matches, holds; simpl;
    rewrite !andb_true_r, !andb_true_iff.
  - intros [H Hd]. split; [done|].
    destruct (completedAt kv.2) as [d|]; simpl in *; [|done].
    apply Z.leb_le in Hd. apply Z.leb_le. unfold addDays in *. lia.
  - tauto.
Qed.

(** ** The client: search and status filter *)

Section client_strings.
Implicit Types (s q a b : string).




Lemma lower_idemp c : Client.lower (Client.lower c) = Client.lower c.
Proof.
  destruct c as [[] [] [] [] [] [] [] []]; reflexivity.
Qed.

Lemma toLowerCase_idemp s :
  Client.toLowerCase (Client.toLowerCase s) = Client.toLowerCase s.
Proof. induction s as [|c s IH]; simpl; [done|]. by rewrite lower_idemp, IH. Qed.

End client_strings.



(** ** The client: the task list after a deletion *)

(** After [deleteTask] the list holds exactly the tasks with another id, in
    their order; the filtered view of the new list is the old view without
    the task; and deleting a task that was just added gives the list back,
    if no other task has its id. *)
Theorem client_delete i statusFilter searchQuery newTask (prev : list Client.Task) :
  (∀ task, task ∈ Client.removed i prev ↔ task ∈ prev ∧ Client.id task ≠ i) ∧
  Client.removed i prev `sublist_of` prev ∧
  Client.filteredTasks statusFilter searchQuery (Client.removed i prev)
  = Client.removed i (Client.filteredTasks statusFilter searchQuery prev) ∧
  ((∀ task, task ∈ prev → Client.id task ≠ Client.id newTask) →
   Client.removed (Client.id newTask) (Client.added newTask prev) = prev).
Proof.
  unfold Client.removed, Client.filteredTasks, Client.added.
  split; [|split; [|split]].
  - intros task. rewrite !list_elem_of_In, filter_In.
    by rewrite negb_true_iff, bool_decide_eq_false.
  - induction prev as [|x l IH]; simpl; [done|].
    destruct (negb _); [by apply sublist_skip | by apply sublist_cons].
  - induction prev as [|x l IH]; simpl; [done|].
    destruct (negb (bool_decide (Client.id x = i))) eqn:Hx,
             (Client.shown statusFilter searchQuery x) eqn:Hs; simpl;
      rewrite ?Hx, ?Hs, IH; done.
  - intros Hfresh. simpl. rewrite bool_decide_eq_true_2 by done. simpl.
    induction prev as [|x l IH]; simpl; [done|].
    rewrite bool_decide_eq_false_2 by (apply Hfresh, list_elem_of_here).
    simpl. f_equal. apply IH. intros task Hin.
    by apply Hfresh, list_elem_of_further.
Qed.

Lemma client_delete_witness :
  Client.removed "c3" (Client.added newRow sampleRows) = sampleRows ∧
  Client.removed "a1" sampleRows `sublist_of` sampleRows.
Proof.
  destruct (client_delete "a1" None "" newRow sampleRows)
    as (_ & Hsub & _ & Hback).
  split; [|exact Hsub].
  apply Hback. intros task Hin.
  repeat (apply elem_of_cons in Hin as [->|Hin]); [done..|].
  by apply elem_of_nil in Hin.
Defined.

(** ** The client: the counts of the dashboard *)

(** The counts of [TaskStats.tsx]: Pending, In Progress and Completed add
    up to the total, and the overdue tasks are at most the Pending and
    In Progress ones. *)
Theorem client_stats now (tasks : list Client.Task) :
  let s := Client.stats now tasks in
  Client.total s = Client.pending s + Client.inProgress s + Client.completed s ∧
  Client.overdue s ≤ Client.pending s + Client.inProgress s ∧
  Client.total s = length tasks.
Proof.
  simpl. split; [|split; [|done]].
  - induction tasks as [|x l IH]; simpl; [done|].
    destruct (Client.status x); simpl; lia.
  - induction tasks as [|x l IH]; simpl; [done|].
    unfold Client.isOverdue at 1.
    destruct (Client.status x), (Client.deadline x <? now)%Z; simpl; lia.
Qed.

(** ** The client: a task that leaves the selected status *)

(** When an update gives a task a status other than the selected one, the
    view is the one obtained by removing the task; the list itself keeps
    its length. *)
Theorem client_update_leaves_view s searchQuery i updatedTask
    (prev : list Client.Task) :
  Client.status updatedTask ≠ s →
  Client.filteredTasks (Some s) searchQuery (Client.updated i updatedTask prev)
  = Client.filteredTasks (Some s) searchQuery (Client.removed i prev) ∧
  length (Client.updated i updatedTask prev) = length prev.
Proof.
  intros Hne. unfold Client.updated. split; [|apply length_map].
  unfold Client.filteredTasks, Client.removed.
  assert (Client.shown (Some s) searchQuery updatedTask = false) as Hhide.
  { unfold Client.shown. by rewrite bool_decide_eq_false_2. }
  induction prev as [|x l IH]; simpl; [done|].
  case_bool_decide; simpl.
  - by rewrite Hhide.
  - by rewrite IH.
Qed.

Lemma client_update_leaves_view_witness :
  Client.filteredTasks (Some Pending) "" (Client.updated "a1" completedRow sampleRows)
  = [] ∧
  Client.filteredTasks (Some Pending) "" (Client.removed "a1" sampleRows) = [] ∧
  length (Client.updated "a1" completedRow sampleRows) = 2.
Proof.
  destruct (client_update_leaves_view Pending "" "a1" completedRow sampleRows
              ltac:(discriminate)) as [Hv Hl].
  split; [|split; [reflexivity|exact Hl]].
  rewrite Hv. reflexivity.
Defined.

(** ** The completion rate on small counts *)

Lemma completionRate_agrees_below_40_witness :
  completionRate 4 10 = Some 40%Z ∧ completionRate 1 3 = Some 33%Z.
Proof.
  split.
  - rewrite (completionRate_agrees_below_40 4 10) by lia. reflexivity.
  - rewrite (completionRate_agrees_below_40 1 3) by lia. reflexivity.
Defined.
